(** * Shraddha Homeo Clinic: case-number codec, report composer and visit store

    A shallow embedding of the parts of [src/main.py] that the specification
    talks about:

    - the case-number codec: the zero-padding block of [get_patient_data]
      (lines 576-587) and [_unpad_case_no] (lines 764-777);
    - the report composer [generate_patient_pdf] (lines 1020-1213), as a
      function that builds the list of flowables (the "story") and hands it
      to the document engine;
    - the two tables of the SQLite store and the statements the program
      runs on them ([save_patient], [update_patient_intake],
      [save_followup], [delete_patient_record], [get_full_patient_data]).

    Python strings are sequences of Unicode code points, so a string is a
    [list N] here; ASCII literals are written [lit "..."]. *)

From Stdlib Require Import NArith ZArith QArith Qround Lia List Ascii String.
From Stdlib Require Import DecimalPos DecimalN.
From stdpp Require Import base option list strings gmap sorting.

(* ===================================================================== *)
(** ** Python strings *)
(* ===================================================================== *)

Module Py.

(** A [str] is a list of code points. *)
Definition str : Type := list N.

(** An ASCII literal as a [str]. *)
Definition lit (s : string) : str :=
  List.map N_of_ascii (list_ascii_of_string s).

(** The values the program reads from a TEXT column or a dict: [None] or a
    string. *)
Inductive value : Type :=
| None_ : value
| Str (s : str) : value.

(** Truthiness: [None] and [''] are falsy. *)
Definition truthy (v : value) : bool :=
  match v with
  | None_ => false
  | Str [] => false
  | Str (_ :: _) => true
  end.

(** [x or d]. *)
Definition or_ (v d : value) : value := if truthy v then v else d.

(** [str(x)], also what an f-string does with [{x}]. *)
Definition str_of (v : value) : str :=
  match v with
  | None_ => lit "None"
  | Str s => s
  end.

(** [str.isspace] on one code point (CPython's [_PyUnicode_IsWhitespace]). *)
Definition isspace (c : N) : bool :=
  ((9 <=? c) && (c <=? 13) || (28 <=? c) && (c <=? 32)
   || (c =? 133) || (c =? 160) || (c =? 5760)
   || (8192 <=? c) && (c <=? 8202) || (c =? 8232) || (c =? 8233)
   || (c =? 8239) || (c =? 8287) || (c =? 12288))%N.

(** The code points of the zero digits of the Unicode category Nd (decimal
    digits); each is followed by its digits one to nine. This is what
    [\d] matches in a [str] pattern. *)
Definition Nd_zeros : list N :=
  [48; 1632; 1776; 1984; 2406; 2534; 2662; 2790; 2918; 3046; 3174; 3302;
   3430; 3558; 3664; 3792; 3872; 4160; 4240; 6112; 6160; 6470; 6608; 6784;
   6800; 6992; 7088; 7232; 7248; 42528; 43216; 43264; 43472; 43504; 43600;
   44016; 65296; 66720; 68912; 69734; 69872; 69942; 70096; 70384; 70736;
   70864; 71248; 71360; 71472; 71904; 72016; 72784; 73040; 73120; 92768;
   92864; 93008; 120782; 120792; 120802; 120812; 120822; 123200; 123632;
   125264; 130032]%N.

Definition isdecimal (c : N) : bool :=
  existsb (fun z => (z <=? c) && (c <? z + 10))%N Nd_zeros.

(** The character class [0-9]. *)
Definition is_ascii_digit (c : N) : bool := ((48 <=? c) && (c <=? 57))%N.

Fixpoint lstrip_by (p : N -> bool) (s : str) : str :=
  match s with
  | [] => []
  | c :: s' => if p c then lstrip_by p s' else s
  end.

Definition rstrip_by (p : N -> bool) (s : str) : str :=
  rev (lstrip_by p (rev s)).

(** [s.strip()]. *)
Definition strip (s : str) : str := rstrip_by isspace (lstrip_by isspace s).

(** [s.lstrip('0')]. *)
Definition lstrip_zero (s : str) : str := lstrip_by (N.eqb 48) s.

(** [s.zfill(width)]: a leading sign stays in front of the padding. *)
Definition zfill (width : nat) (s : str) : str :=
  if (width <=? length s)%nat then s
  else
    let fill := repeat 48%N (width - length s) in
    match s with
    | c :: r => if ((c =? 43) || (c =? 45))%N then c :: fill ++ r
                else fill ++ s
    | [] => fill
    end.

(** [s.replace('\n', '<br/>')]. *)
Fixpoint replace_newline (s : str) : str :=
  match s with
  | [] => []
  | c :: s' =>
      if (c =? 10)%N then lit "<br/>" ++ replace_newline s'
      else c :: replace_newline s'
  end.

(** [a <= b] on strings: lexicographic on code points, a proper prefix
    first. SQLite's BINARY collation on TEXT orders the same way. *)
Fixpoint str_leb (a b : str) : bool :=
  match a, b with
  | [], _ => true
  | _ :: _, [] => false
  | x :: a', y :: b' =>
      if (x <? y)%N then true
      else if (x =? y)%N then str_leb a' b'
      else false
  end.

(** [int(s)] for a string of ASCII digits. *)
Definition int_of_digits (s : str) : N :=
  fold_left (fun acc c => 10 * acc + (c - 48))%N s 0%N.

Fixpoint chars_of_uint (d : Decimal.uint) : str :=
  match d with
  | Decimal.Nil => []
  | Decimal.D0 d => 48%N :: chars_of_uint d
  | Decimal.D1 d => 49%N :: chars_of_uint d
  | Decimal.D2 d => 50%N :: chars_of_uint d
  | Decimal.D3 d => 51%N :: chars_of_uint d
  | Decimal.D4 d => 52%N :: chars_of_uint d
  | Decimal.D5 d => 53%N :: chars_of_uint d
  | Decimal.D6 d => 54%N :: chars_of_uint d
  | Decimal.D7 d => 55%N :: chars_of_uint d
  | Decimal.D8 d => 56%N :: chars_of_uint d
  | Decimal.D9 d => 57%N :: chars_of_uint d
  end.

(** [str(n)] for a natural number: its decimal representation. *)
Definition str_of_int (n : N) : str := chars_of_uint (N.to_uint n).

End Py.

(* ===================================================================== *)
(** ** The case-number codec *)
(* ===================================================================== *)

Module Codec.
Import Py.

(** [self.CASE_NO_PADDING_SIZE]. *)
Definition CASE_NO_PADDING_SIZE : nat := 5.

(** [re.sub(r'[^0-9]', '', content)]. *)
Definition numeric_part (content : str) : str :=
  List.filter is_ascii_digit content.

(** The block of [get_patient_data] guarded by
    [key == 'entry_case_no' and content]: the content becomes its digits,
    zero-filled, when it has any, and stays as it is otherwise. Neither
    [re.sub] nor [zfill] raises on a string, so the [try] never reaches
    its handler. *)
Definition pad_case_no (content : str) : str :=
  match content with
  | [] => content
  | _ :: _ =>
      match numeric_part content with
      | [] => content
      | (_ :: _) as digits => zfill CASE_NO_PADDING_SIZE digits
      end
  end.

(** The stored form of the text typed in the case-number entry: the
    widget's text is stripped first ([widget.get().strip()]). *)
Definition encode (raw : str) : str := pad_case_no (strip raw).

(** [$] outside MULTILINE mode: the end of the string, or just before a
    newline that ends the string. *)
Definition at_end (s : str) : bool :=
  match s with
  | [] => true
  | [c] => (c =? 10)%N
  | _ => false
  end.

(** [\d+$] from the current position; [started] tells that [\d+] has
    already taken a character. *)
Fixpoint match_digits_end (started : bool) (s : str) : bool :=
  match s with
  | [] => started
  | c :: s' =>
      (isdecimal c && match_digits_end true s') || (started && at_end s)
  end.

(** [re.match(r'0+\d+$', s)]: a zero, then more zeros or the rest of the
    pattern (backtracking over how many zeros [0+] takes). *)
Fixpoint match_padded (s : str) : bool :=
  match s with
  | [] => false
  | c :: s' =>
      (c =? 48)%N && (match_padded s' || match_digits_end false s')
  end.

(** [_unpad_case_no]: the display form of a stored case number. *)
Definition _unpad_case_no (case_no_value : value) : str :=
  match case_no_value with
  | None_ => []
  | Str s =>
      if match_padded s then
        match lstrip_zero s with
        | [] => lit "0"
        | (_ :: _) as unpadded => unpadded
        end
      else s
  end.

Definition decode (stored : str) : str := _unpad_case_no (Str stored).

(** Whether a string has an ASCII digit. *)
Definition has_digit (s : str) : bool := existsb is_ascii_digit s.

(** A string made of ASCII digits only. *)
Definition all_digits (s : str) : bool := forallb is_ascii_digit s.

(** The display form of a digit string: leading zeros removed, ["0"] when
    nothing is left. *)
Definition canonical (ds : str) : str :=
  match lstrip_zero ds with
  | [] => lit "0"
  | (_ :: _) as u => u
  end.

(** [int(numeric_part)]: the number the digits of a string denote. *)
Definition digits_value (s : str) : N := int_of_digits (numeric_part s).

End Codec.


(* ===================================================================== *)
(** ** The report composer *)
(* ===================================================================== *)

Module Report.
Import Py.

(** The paragraph styles [generate_patient_pdf] defines. *)
Inductive style : Type :=
| H_TITLE | H_SECTION | H_VISIT | BODY | BODY_BOLD | TEXT_BLOCK.

(** A table cell: a [Paragraph], or a bare string (the two [''] cells of the
    address row). *)
Inductive cell : Type :=
| CellParagraph (text : value) (st : style)
| CellText (s : str).

(** One command of a [TableStyle]: its name, the two corners of its cell
    range, and its remaining arguments as written in the source. *)
Record style_cmd : Type := Cmd {
  cmd_name : string;
  cmd_start : Z * Z;
  cmd_stop : Z * Z;
  cmd_args : list string
}.

(** The flowables the composer puts in the story. Column widths are
    fractions of [doc.width]. *)
Inductive flowable : Type :=
| Spacer (width height : Z)
| Paragraph (text : value) (st : style)
| Table (rows : list (list cell)) (colWidths : list Q) (tstyle : list style_cmd)
| PageBreak.

(** A row of [visit_records]: (visit_date, complaints, new_modalities,
    treatment). *)
Record visit : Type := Visit {
  v_date : value;
  v_complaints : value;
  v_new_modalities : value;
  v_treatment : value
}.

Definition hex_digit (n : Z) : N :=
  (if n <? 10 then Z.to_N (48 + n) else Z.to_N (87 + n))%Z.

(** [f"{n:02x}"] for a colour component, which is at most 255. *)
Definition format_02x (n : Z) : str := [hex_digit (n / 16); hex_digit (n mod 16)].

(** [_to_hex]: [int(c * 255)] of each component, as [#rrggbb]. *)
Definition _to_hex (red green blue : Q) : str :=
  lit "#" ++ format_02x (Qfloor (red * 255))
          ++ format_02x (Qfloor (green * 255))
          ++ format_02x (Qfloor (blue * 255)).

Definition NAVY_HEX : str := _to_hex (4 # 100) (16 # 100) (35 # 100).
Definition TEAL_HEX : str := _to_hex 0 (5 # 10) (5 # 10).

Definition NA : value := Str (lit "N/A").

(** [intake_data.get(key)] and [intake_data.get(key, 'N/A')]. *)
Definition get (intake_data : gmap string value) (key : string) : value :=
  default None_ (intake_data !! key).

Definition get_or_NA (intake_data : gmap string value) (key : string) : value :=
  default NA (intake_data !! key).

(** [str(x or 'N/A').replace('\n', '<br/>')]. *)
Definition text_or_NA (x : value) : value :=
  Str (replace_newline (str_of (or_ x NA))).

(** The bulleted heading of a section. *)
Definition section_heading (title : string) : flowable :=
  Paragraph (Str (lit "<font color='" ++ TEAL_HEX ++ lit "'>&#8226;</font> <b><u>"
                    ++ lit title ++ lit ":</u></b>")) H_SECTION.

Definition label (text : string) : cell := CellParagraph (Str (lit text)) BODY_BOLD.

(** The nested helper [add_bulleted_text_section]: the two flowables it
    appends. *)
Definition add_bulleted_text_section
    (intake_data : gmap string value) (title key : string) : list flowable :=
  [ section_heading title;
    Paragraph (text_or_NA (get intake_data key)) TEXT_BLOCK ].

Definition all_cells : Z * Z := (0, 0)%Z.
Definition last_cell : Z * Z := (-1, -1)%Z.

Definition four_columns : list Q := [1 # 10; 4 # 10; 1 # 10; 4 # 10].

Definition grid_style : list style_cmd :=
  [ Cmd "VALIGN" all_cells last_cell ["TOP"];
    Cmd "BOTTOMPADDING" all_cells last_cell ["1"];
    Cmd "TOPPADDING" all_cells last_cell ["1"] ].

(** [prelim_table]. *)
Definition prelim_table (intake_data : gmap string value) : flowable :=
  Table
    [ [ label "<b>Date:</b>"; CellParagraph (get_or_NA intake_data "date") BODY;
        label "<b>Age:</b>"; CellParagraph (get_or_NA intake_data "age") BODY ];
      [ label "<b>Name:</b>"; CellParagraph (get_or_NA intake_data "name") BODY;
        label "<b>Gender:</b>"; CellParagraph (get_or_NA intake_data "gender") BODY ];
      [ label "<b>Address:</b>"; CellParagraph (get_or_NA intake_data "address") BODY;
        CellText []; CellText [] ] ]
    four_columns
    [ Cmd "VALIGN" all_cells last_cell ["TOP"];
      Cmd "SPAN" (1, 2)%Z (-1, 2)%Z [];
      Cmd "LEFTPADDING" all_cells last_cell ["2"];
      Cmd "RIGHTPADDING" all_cells last_cell ["2"];
      Cmd "BOTTOMPADDING" all_cells last_cell ["1"];
      Cmd "TOPPADDING" all_cells last_cell ["1"] ].

(** A value cell of the personal-history and generalities tables:
    [str(intake_data.get(key, 'N/A') or 'N/A').replace('\n', '<br/>')]. *)
Definition grid_value (intake_data : gmap string value) (key : string) : cell :=
  CellParagraph (text_or_NA (get_or_NA intake_data key)) BODY.

(** [ph_table]. *)
Definition ph_table (intake_data : gmap string value) : flowable :=
  Table
    [ [ label "<b>Habit:</b>"; grid_value intake_data "habit";
        label "<b>Diet:</b>"; grid_value intake_data "diet" ];
      [ label "<b>Appetite:</b>"; grid_value intake_data "appetite";
        label "<b>Bowel:</b>"; grid_value intake_data "bowel" ] ]
    four_columns grid_style.

(** [gen_table]. *)
Definition gen_table (intake_data : gmap string value) : flowable :=
  Table
    [ [ label "<b>Mind:</b>"; grid_value intake_data "mind";
        label "<b>Sleep:</b>"; grid_value intake_data "sleep" ];
      [ label "<b>Desire:</b>"; grid_value intake_data "desire";
        label "<b>Aversion:</b>"; grid_value intake_data "aversion" ] ]
    four_columns grid_style.

(** [vitals_table]. *)
Definition vitals_table (intake_data : gmap string value) : flowable :=
  Table
    [ [ label "<b>Wt:</b>"; CellParagraph (get_or_NA intake_data "wt") BODY;
        label "<b>B.P.:</b>"; CellParagraph (get_or_NA intake_data "bp") BODY ];
      [ label "<b>Pulse:</b>"; CellParagraph (get_or_NA intake_data "pulse") BODY;
        label "<b>Temp:</b>"; CellParagraph (get_or_NA intake_data "temp") BODY ] ]
    four_columns grid_style.

(** The title paragraph of the patient header block. *)
Definition patient_header (intake_data : gmap string value) : flowable :=
  Paragraph
    (Str (lit "<b>PATIENT INTAKE RECORD:</b> <font color='" ++ NAVY_HEX ++ lit "'>"
            ++ str_of (get_or_NA intake_data "name")
            ++ lit "</font> (Case No: "
            ++ str_of (get_or_NA intake_data "case_no") ++ lit ")"))
    H_TITLE.

(** The story up to the conditional visit section, in the order of the
    [story.append] calls. *)
Definition intake_story (intake_data : gmap string value) : list flowable :=
  [ Spacer 1 15; patient_header intake_data; Spacer 1 2 ]
  ++ [ section_heading "Preliminary Data"; prelim_table intake_data; Spacer 1 5 ]
  ++ add_bulleted_text_section intake_data "Chief Complaints (C/O)" "co"
  ++ add_bulleted_text_section intake_data "Onset and Duration" "onset_duration"
  ++ [ section_heading "Personal History"; ph_table intake_data; Spacer 1 5 ]
  ++ add_bulleted_text_section intake_data "Family History" "family_history"
  ++ add_bulleted_text_section intake_data "Past History" "past_history"
  ++ [ section_heading "Homoeopathic Generalities"; gen_table intake_data; Spacer 1 5 ]
  ++ [ section_heading "Physical Examination & Initial Treatment";
       vitals_table intake_data; Spacer 1 5 ]
  ++ add_bulleted_text_section intake_data "Systemic Examination" "systemic_exam"
  ++ add_bulleted_text_section intake_data "Modalities (P.E.)" "modalities_pe"
  ++ add_bulleted_text_section intake_data "Diagnosis" "diagnosis"
  ++ add_bulleted_text_section intake_data "Initial Treatment" "treatment".

(** The title of the visit section. *)
Definition visit_title : flowable :=
  Paragraph (Str (lit "<u>VISIT HISTORY / FOLLOW-UPS</u>")) H_TITLE.

(** The sub-heading of a visit: [f"Visit {i+1}: <font color='black'>{date}</font>"],
    given the number [i+1]. *)
Definition visit_heading (number : nat) (date : value) : flowable :=
  Paragraph
    (Str (lit "Visit " ++ str_of_int (N.of_nat number)
            ++ lit ": <font color='black'>" ++ str_of date ++ lit "</font>"))
    H_VISIT.

(** [visit_table]. *)
Definition visit_table (v : visit) : flowable :=
  Table
    [ [ label "<b>Complaints/Changes:</b>";
        CellParagraph (text_or_NA (v_complaints v)) BODY ];
      [ label "<b>New Modalities:</b>";
        CellParagraph (text_or_NA (v_new_modalities v)) BODY ];
      [ label "<b>Treatment (Remedy/Dose):</b>";
        CellParagraph (text_or_NA (v_treatment v)) BODY ] ]
    [2 # 10; 8 # 10]
    [ Cmd "VALIGN" all_cells last_cell ["TOP"];
      Cmd "LEFTPADDING" all_cells last_cell ["0"];
      Cmd "RIGHTPADDING" all_cells last_cell ["0"];
      Cmd "BOTTOMPADDING" all_cells last_cell ["2"];
      Cmd "TOPPADDING" all_cells last_cell ["2"];
      Cmd "LINEBELOW" (0, 2)%Z (-1, 2)%Z ["0.5"; "lightgrey"] ].

(** The three flowables one turn of the visit loop appends. *)
Definition visit_block (number : nat) (v : visit) : list flowable :=
  [ visit_heading number (v_date v); visit_table v; Spacer 1 8 ].

(** The body of [for i, visit in enumerate(visit_records)], from index [i]
    on: each turn appends three flowables to the story. *)
Fixpoint visit_loop (i : nat) (visit_records : list visit)
    (story : list flowable) : list flowable :=
  match visit_records with
  | [] => story
  | v :: rest =>
      let story := story ++ [visit_heading (i + 1) (v_date v)] in
      let story := story ++ [visit_table v] in
      let story := story ++ [Spacer 1 8] in
      visit_loop (S i) rest story
  end.

(** The story [generate_patient_pdf] hands to [doc.build]. *)
Definition compose_story
    (intake_data : gmap string value) (visit_records : list visit)
    : list flowable :=
  let story := intake_story intake_data in
  match visit_records with
  | [] => story
  | _ :: _ =>
      let story := story ++ [PageBreak] in
      let story := story ++ [visit_title] in
      let story := story ++ [Spacer 1 25] in
      visit_loop 0 visit_records story
  end.

(** The texts handed to the [Paragraph] constructor by a flowable of the
    story, in the order in which the source constructs them: the cells of a
    table row by row, before the table itself. *)
Definition cell_texts (c : cell) : list value :=
  match c with
  | CellParagraph text _ => [text]
  | CellText _ => []
  end.

Definition paragraph_texts (f : flowable) : list value :=
  match f with
  | Paragraph text _ => [text]
  | Table rows _ _ => List.flat_map (List.flat_map cell_texts) rows
  | Spacer _ _ => []
  | PageBreak => []
  end.

(** Every text the source hands to [Paragraph] while it assembles the
    story, in order. The story is appended to in the order in which its
    flowables are constructed. *)
Definition constructed_texts (story : list flowable) : list value :=
  List.flat_map paragraph_texts story.

(** The first exception raised while the paragraphs are constructed.
    [Paragraph] parses its text as markup when it is constructed and raises
    on a text it cannot parse; that parser belongs to the document library,
    so it is the parameter [parse_error], which gives the text of the
    exception for a text that is refused. *)
Fixpoint first_error (parse_error : value -> option str) (texts : list value)
    : option str :=
  match texts with
  | [] => None
  | text :: rest =>
      match parse_error text with
      | Some e => Some e
      | None => first_error parse_error rest
      end
  end.

(** What [doc.build(story)] does, seen from the caller: it returns, or it
    raises an exception [e]; [BuildRaised] carries [str(e)]. *)
Inductive build_result : Type :=
| BuildOk
| BuildRaised (e : str).

(** The calls [generate_patient_pdf] makes to the outside. *)
Inductive event : Type :=
| EvBuild (filename : str) (story : list flowable)
| EvShowError (title message : str).

(** How a call of [generate_patient_pdf] ends: it returns a boolean, or an
    exception leaves it. *)
Inductive outcome : Type :=
| Returned (b : bool)
| Raised (e : str).

(** [generate_patient_pdf]: the calls it makes, in order, and how it ends.
    The story is assembled before the [try]: an exception raised by a
    [Paragraph] constructor leaves the function before [doc.build] is
    called. Only [doc.build], the parameter [build], is inside the [try]. *)
Definition generate_patient_pdf
    (parse_error : value -> option str)
    (build : str -> list flowable -> build_result)
    (intake_data : gmap string value) (visit_records : list visit)
    (filename : str) : list event * outcome :=
  let story := compose_story intake_data visit_records in
  match first_error parse_error (constructed_texts story) with
  | Some e => ([], Raised e)
  | None =>
      match build filename story with
      | BuildOk => ([EvBuild filename story], Returned true)
      | BuildRaised e =>
          ([ EvBuild filename story;
             EvShowError (lit "PDF Build Error")
                         (lit "Failed to build PDF content. Error: " ++ e) ],
           Returned false)
      end
  end.

Definition is_visit_heading (f : flowable) : bool :=
  match f with
  | Paragraph _ H_VISIT => true
  | _ => false
  end.

Definition is_page_break (f : flowable) : bool :=
  match f with
  | PageBreak => true
  | _ => false
  end.

Definition is_build (e : event) : bool :=
  match e with
  | EvBuild _ _ => true
  | EvShowError _ _ => false
  end.

Definition is_show_error (e : event) : bool :=
  match e with
  | EvBuild _ _ => false
  | EvShowError _ _ => true
  end.

(** An intake mapping with a name that is not well-formed markup. *)
Definition intake_unparsable_name : gmap string value :=
  {[ "name" := Str (lit "R<L"); "case_no" := Str (lit "12") ]}.

(** A parser behaviour for the examples: [None] and the text ["R<L"] are
    refused, every other text is accepted. *)
Definition sample_parse_error (text : value) : option str :=
  match text with
  | None_ => Some (lit "'NoneType' object has no attribute 'split'")
  | Str s =>
      if bool_decide (s = lit "R<L") then Some (lit "paraparser: syntax error")
      else None
  end.

(** An intake mapping in which the weight and the diagnosis are the empty
    string, as [get_patient_data] stores blank entries. *)
Definition intake_blank_weight : gmap string value :=
  {[ "name" := Str (lit "Asha"); "case_no" := Str (lit "12");
     "wt" := Str []; "diagnosis" := Str [] ]}.

End Report.

(* ===================================================================== *)
(** ** The store and the handlers that write to it *)
(* ===================================================================== *)

(** The handlers are modelled on the path where SQLite succeeds: a statement
    that raises [sqlite3.Error] is not committed and leaves the database as
    it was. *)

Module Store.
Import Py Codec.

(** A row of [patients]: the key and the 26 TEXT columns in schema order
    (date, case_no, name, ..., treatment). *)
Record patient_row : Type := PatientRow {
  row_id : Z;
  columns : list str
}.

(** A row of [visits]. *)
Record visit_row : Type := VisitRow {
  visit_id : Z;
  patient_id : Z;
  visit_date : str;
  complaints : str;
  new_modalities : str;
  treatment : str
}.

(** The database: the two tables and the AUTOINCREMENT counters. *)
Record db : Type := Db {
  patients : list patient_row;
  visits : list visit_row;
  next_patient_id : Z;
  next_visit_id : Z
}.

(** The program state the handlers share: the database and
    [self.current_patient_id]. *)
Record PatientManagerApp : Type := App {
  store : db;
  current_patient_id : option Z
}.

(** A form widget with the text its [get] returns: a [Text], or an [Entry]
    or [Combobox]. *)
Inductive widget : Type :=
| TextWidget (content : str)
| EntryWidget (content : str).

Definition intake_keys : list string :=
  [ "entry_date"; "entry_case_no"; "entry_name"; "entry_age"; "entry_address";
    "combo_sex"; "entry_co"; "entry_onset_duration";
    "entry_habit"; "entry_diet"; "entry_appetite"; "entry_bowel";
    "entry_family_history"; "entry_past_history";
    "entry_mind"; "entry_sleep"; "entry_desire"; "entry_aversion";
    "entry_wt"; "entry_bp"; "entry_pulse"; "entry_temp";
    "entry_systemic_exam"; "entry_modalities_pe"; "entry_diagnosis";
    "entry_treatment" ].

(** The columns of [patients] other than [id]. *)
Definition patient_cols : list string :=
  [ "date"; "case_no"; "name"; "age"; "address"; "gender"; "co";
    "onset_duration"; "habit"; "diet"; "appetite"; "bowel";
    "family_history"; "past_history"; "mind"; "sleep"; "desire"; "aversion";
    "wt"; "bp"; "pulse"; "temp"; "systemic_exam"; "modalities_pe";
    "diagnosis"; "treatment" ].

(** The stripped content of the widget registered under a key, [''] when
    there is none. *)
Definition widget_content (entries : gmap string widget) (key : string) : str :=
  match entries !! key with
  | Some (TextWidget c) => strip c
  | Some (EntryWidget c) => strip c
  | None => []
  end.

(** [get_patient_data]: the 26 values in key order, the case number
    zero-padded. *)
Definition get_patient_data (entries : gmap string widget) : list str :=
  List.map
    (fun key =>
       let content := widget_content entries key in
       if bool_decide (key = "entry_case_no") then pad_case_no content
       else content)
    intake_keys.

(** The follow-up form: the date is an [Entry], the other three are [Text]
    widgets. *)
Record followup_form : Type := FollowupForm {
  fu_entry_date : str;
  fu_text_complaints : str;
  fu_text_new_modalities : str;
  fu_text_treatment : str
}.

(** [get_followup_data]: the [Text] contents are stripped, the date is
    not. *)
Definition get_followup_data (f : followup_form) : str * str * str * str :=
  (fu_entry_date f, strip (fu_text_complaints f),
   strip (fu_text_new_modalities f), strip (fu_text_treatment f)).

(** [validate_required_fields]. *)
Definition validate_required_fields (entries : gmap string widget) : bool :=
  let text key :=
    match entries !! key with
    | Some (TextWidget c) | Some (EntryWidget c) => strip c
    | None => []
    end in
  negb (bool_decide (text "entry_name" = []))
  && negb (bool_decide (text "entry_case_no" = [])).

(** [edit_record]: loads a patient when its row exists. *)
Definition edit_record (patient : Z) (a : PatientManagerApp) : PatientManagerApp :=
  if existsb (fun p => (row_id p =? patient)%Z) (patients (store a))
  then App (store a) (Some patient)
  else a.

(** [save_patient]: INSERT INTO patients, then [edit_record] on the new
    row. *)
Definition save_patient (entries : gmap string widget) (a : PatientManagerApp) : PatientManagerApp :=
  if validate_required_fields entries then
    let d := store a in
    let new_patient_id := next_patient_id d in
    let d' := Db (patients d ++ [PatientRow new_patient_id (get_patient_data entries)])
                 (visits d) (new_patient_id + 1)%Z (next_visit_id d) in
    edit_record new_patient_id (App d' (current_patient_id a))
  else a.

(** [update_patient_intake]: UPDATE patients SET ... WHERE id = ?. *)
Definition update_patient_intake (entries : gmap string widget) (a : PatientManagerApp) : PatientManagerApp :=
  if validate_required_fields entries then
    match current_patient_id a with
    | None => a
    | Some current =>
        let d := store a in
        let data := get_patient_data entries in
        let update p :=
          if (row_id p =? current)%Z then PatientRow (row_id p) data else p in
        App (Db (List.map update (patients d)) (visits d)
                (next_patient_id d) (next_visit_id d))
            (current_patient_id a)
    end
  else a.

(** [save_followup]: INSERT INTO visits, when a patient is loaded and the
    date and the treatment are not blank. *)
Definition save_followup (f : followup_form) (a : PatientManagerApp) : PatientManagerApp :=
  match current_patient_id a with
  | None => a
  | Some current =>
      let '(date, complaints, new_modalities, treatment) := get_followup_data f in
      if bool_decide (strip date = []) || bool_decide (strip treatment = [])
      then a
      else
        let d := store a in
        let row := VisitRow (next_visit_id d) current date complaints
                            new_modalities treatment in
        App (Db (patients d) (visits d ++ [row])
                (next_patient_id d) (next_visit_id d + 1)%Z)
            (current_patient_id a)
  end.

(** [delete_patient_record]: with a row selected and the question
    answered yes, DELETE FROM visits WHERE patient_id = ?, then DELETE FROM
    patients WHERE id = ?. [selected_item] is the identifier of the selected
    row, which the lists set to the patient's id. *)
Definition delete_patient_record
    (selected_item : option Z) (confirm : bool) (a : PatientManagerApp) : PatientManagerApp :=
  match selected_item with
  | None => a
  | Some patient =>
      if confirm then
        let d := store a in
        let visits' := List.filter (fun v => negb (patient_id v =? patient)%Z) (visits d) in
        let patients' := List.filter (fun p => negb (row_id p =? patient)%Z) (patients d) in
        App (Db patients' visits' (next_patient_id d) (next_visit_id d))
            (current_patient_id a)
      else a
  end.

(** [reset_to_new_patient_mode], reached through [clear_entries]. *)
Definition reset_to_new_patient_mode (a : PatientManagerApp) : PatientManagerApp := App (store a) None.

(** [init_db] on a database that has its tables: the CREATE TABLE IF NOT
    EXISTS statements and the column rename leave the rows alone. *)
Definition init_db (a : PatientManagerApp) : PatientManagerApp := a.

(** Visit keys are distinct and below the counter. *)
Definition visits_wf (d : db) : Prop :=
  NoDup (List.map visit_id (visits d))
  /\ Forall (fun v => (visit_id v < next_visit_id d)%Z) (visits d).

(** The database of a fresh installation. *)
Definition empty_db : db := Db [] [] 1 1.
Definition initial : PatientManagerApp := App empty_db None.

(** The actions of the user that reach the store. *)
Inductive command : Type :=
| SavePatient (entries : gmap string widget)
| UpdatePatientIntake (entries : gmap string widget)
| SaveFollowup (f : followup_form)
| DeletePatientRecord (selected_item : option Z) (confirm : bool)
| EditRecord (patient : Z)
| ClearEntries
| InitDb.

Definition run (a : PatientManagerApp) (c : command) : PatientManagerApp :=
  match c with
  | SavePatient entries => save_patient entries a
  | UpdatePatientIntake entries => update_patient_intake entries a
  | SaveFollowup f => save_followup f a
  | DeletePatientRecord selected_item confirm =>
      delete_patient_record selected_item confirm a
  | EditRecord patient => edit_record patient a
  | ClearEntries => reset_to_new_patient_mode a
  | InitDb => init_db a
  end.

Definition run_all (a : PatientManagerApp) (cs : list command) : PatientManagerApp := fold_left run cs a.

(** [ORDER BY visit_date ASC]: the order of SQLite's BINARY collation on the
    date text. *)
Definition date_text_le (v w : visit_row) : Prop :=
  str_leb (visit_date v) (visit_date w) = true.

#[global] Instance date_text_le_dec : RelDecision date_text_le.
Proof. intros v w. unfold date_text_le. apply _. Defined.

(** [SELECT visit_date, complaints, new_modalities, treatment FROM visits
    WHERE patient_id = ? ORDER BY visit_date ASC]: the selected rows in
    order. *)
Definition select_visits (d : db) (patient : Z) : list visit_row :=
  merge_sort date_text_le
    (List.filter (fun v => (patient_id v =? patient)%Z) (visits d)).

Definition visit_tuple (v : visit_row) : Report.visit :=
  Report.Visit (Str (visit_date v)) (Str (complaints v))
               (Str (new_modalities v)) (Str (treatment v)).

(** [get_full_patient_data]: [None] stands for the pair [(None, None)]. A
    row has all the columns of [patient_cols], so the key [case_no] is in
    the dict when it is read back. *)
Definition get_full_patient_data (d : db) (patient : Z)
    : option (gmap string value * list Report.visit) :=
  let intake_record :=
    List.find (fun p => (row_id p =? patient)%Z) (patients d) in
  let visit_records := visit_tuple <$> select_visits d patient in
  match intake_record with
  | None => None
  | Some record =>
      let intake_data : gmap string value :=
        list_to_map (zip patient_cols (List.map Str (columns record))) in
      let intake_data :=
        <["case_no" := Str (_unpad_case_no (default None_ (intake_data !! "case_no")))]>
          intake_data in
      Some (intake_data, visit_records)
  end.

(** [strftime("%d-%m-%Y")] of a date, which fills the date entry of the
    follow-up form: day and month on two digits, the year on four. *)
Record date : Type := Date { day : N; month : N; year : N }.

Definition strftime_dmy (t : date) : str :=
  zfill 2 (str_of_int (day t)) ++ lit "-"
  ++ zfill 2 (str_of_int (month t)) ++ lit "-"
  ++ zfill 4 (str_of_int (year t)).

(** The calendar order of two dates. *)
Definition date_le (s t : date) : Prop :=
  (year s * 10000 + month s * 100 + day s
   <= year t * 10000 + month t * 100 + day t)%N.

(** A date text of the form dd-mm-yyyy read back as a date. *)
Definition date_of_text (s : str) : date :=
  Date (int_of_digits (take 2 s)) (int_of_digits (take 2 (drop 3 s)))
       (int_of_digits (drop 6 s)).

(** The calendar order of two visits whose dates are in that form. *)
Definition chronological (v w : Report.visit) : Prop :=
  date_le (date_of_text (str_of (Report.v_date v)))
          (date_of_text (str_of (Report.v_date w))).

(** The order of the date texts of two visits handed to the composer. *)
Definition lexicographic (v w : Report.visit) : Prop :=
  str_leb (str_of (Report.v_date v)) (str_of (Report.v_date w)) = true.

(** A session: a patient is saved, then a follow-up dated 15 January 2024
    and one dated 1 February 2024. *)
Definition session_entries : gmap string widget :=
  {[ "entry_name" := EntryWidget (lit "Asha");
     "entry_case_no" := EntryWidget (lit "12") ]}.

Definition session : list command :=
  [ SavePatient session_entries;
    SaveFollowup (FollowupForm (strftime_dmy (Date 15 1 2024))
                    (lit "cough") [] (lit "Bryonia 30"));
    SaveFollowup (FollowupForm (strftime_dmy (Date 1 2 2024))
                    (lit "better") [] (lit "Sac lac")) ].

End Store.

(* ===================================================================== *)
(** ** The lists, the pages and the edit form *)
(* ===================================================================== *)

Module View.
Import Py Codec Store.

(** A column of a patient row by its position in [patient_cols]. *)
Definition column (i : nat) (r : patient_row) : str := default [] (columns r !! i).

Definition date_col : patient_row -> str := column 0.
Definition case_no : patient_row -> str := column 1.
Definition name : patient_row -> str := column 2.
Definition age : patient_row -> str := column 3.
Definition gender : patient_row -> str := column 5.

(** SQLite folds the case of ASCII letters only when it compares with
    LIKE. *)
Definition like_fold (c : N) : N :=
  if ((97 <=? c) && (c <=? 122))%N then (c - 32)%N else c.

(** [s LIKE pattern]: [%] stands for any sequence of characters, [_] for
    any one character, every other character for itself up to ASCII
    case. *)
Fixpoint like (pattern s : str) : bool :=
  match pattern with
  | [] => match s with [] => true | _ :: _ => false end
  | p :: pattern' =>
      if (p =? 37)%N then
        (fix any (s : str) : bool :=
           like pattern' s
           || match s with
              | [] => false
              | _ :: s' => any s'
              end) s
      else
        match s with
        | [] => false
        | c :: s' =>
            ((p =? 95)%N || (like_fold p =? like_fold c)%N) && like pattern' s'
        end
  end.

(** [ORDER BY case_no ASC] on the stored case numbers. *)
Definition case_no_le (r1 r2 : patient_row) : Prop :=
  str_leb (case_no r1) (case_no r2) = true.

#[global] Instance case_no_le_dec : RelDecision case_no_le.
Proof. intros r1 r2. unfold case_no_le. apply _. Defined.

(** A row of a patient list on screen: the identifier of the tree item and
    the values shown (case number, name, date, age, gender). *)
Record tree_row : Type := TreeRow {
  iid : Z;
  values : list str
}.

(** The display row built from a selected row: the case number is
    unpadded. *)
Definition display_row (r : patient_row) : tree_row :=
  TreeRow (row_id r)
          [ _unpad_case_no (Str (case_no r)); name r; date_col r; age r; gender r ].

(** The rows [search_patient] selects: [WHERE case_no LIKE ? OR name LIKE ?]
    with [%query%] for both, [ORDER BY case_no ASC]. *)
Definition search_rows (d : db) (query : str) : list patient_row :=
  let pattern := lit "%" ++ query ++ lit "%" in
  merge_sort case_no_le
    (List.filter (fun r => like pattern (case_no r) || like pattern (name r))
                 (patients d)).

(** [search_patient]: the list it shows. *)
Definition search_patient (d : db) (query : str) : list tree_row :=
  display_row <$> search_rows d query.

(** [self.RECORDS_PER_PAGE]. *)
Definition RECORDS_PER_PAGE : nat := 30.

(** [count_all_patients]. *)
Definition count_all_patients (d : db) : nat := length (patients d).

(** [math.ceil(total_records / RECORDS_PER_PAGE)]. The quotient is a float
    in the source; for every count below 30 * 2^47 its ceiling is the
    integer ceiling computed here. *)
Definition total_pages_of (total_records : nat) : nat :=
  (total_records + (RECORDS_PER_PAGE - 1)) / RECORDS_PER_PAGE.

(** What [load_all_records] leaves on screen and in the pagination
    variables. *)
Record page_view : Type := PageView {
  current_page : Z;
  total_pages : nat;
  rows : list tree_row;
  btn_prev : bool;
  btn_next : bool
}.

(** All patients in the order of the list pages. *)
Definition all_rows_sorted (d : db) : list patient_row :=
  merge_sort case_no_le (patients d).

(** [load_all_records(page_number)]. *)
Definition load_all_records (d : db) (page_number : Z) : page_view :=
  let total_records := count_all_patients d in
  let total_pages := total_pages_of total_records in
  if (total_records =? 0)%nat then PageView 1 total_pages [] false false
  else
    let page_number :=
      if (page_number <? 1)%Z then 1%Z
      else if (page_number >? Z.of_nat total_pages)%Z then Z.of_nat total_pages
      else page_number in
    let offset := Z.to_nat ((page_number - 1) * Z.of_nat RECORDS_PER_PAGE) in
    let selected := take RECORDS_PER_PAGE (drop offset (all_rows_sorted d)) in
    PageView page_number total_pages (display_row <$> selected)
             (page_number >? 1)%Z (page_number <? Z.of_nat total_pages)%Z.

(** [ORDER BY visit_date DESC]. *)
Definition date_text_ge (v w : visit_row) : Prop := date_text_le w v.

#[global] Instance date_text_ge_dec : RelDecision date_text_ge.
Proof. intros v w. unfold date_text_ge. apply _. Defined.

(** [text[:50] + '...' if len(text) > 50 else text]. *)
Definition shorten (text : str) : str :=
  if (50 <? length text)%nat then take 50 text ++ lit "..." else text.

(** [populate_visit_history]: the rows of the history list of the loaded
    patient (identifier, date, complaints, treatment), the list being left
    alone when no patient is loaded. *)
Definition populate_visit_history (a : PatientManagerApp)
    : option (list (Z * (str * str * str))) :=
  match Store.current_patient_id a with
  | None => None
  | Some current =>
      let visits :=
        merge_sort date_text_ge
          (List.filter (fun v => (patient_id v =? current)%Z) (visits (store a))) in
      Some ((fun v => (visit_id v,
                       (visit_date v, shorten (complaints v), shorten (treatment v))))
              <$> visits)
  end.

(** What [widget.insert] leaves in an emptied widget: a [Text] always ends
    with a newline. *)
Definition set_widget (w : widget) (text : str) : widget :=
  match w with
  | TextWidget _ => TextWidget (text ++ [10%N])
  | EntryWidget _ => EntryWidget text
  end.

(** [clear_entries] on the intake form: every widget is emptied and the date
    entry is set to today's date. *)
Definition clear_entries (today : str) (entries : gmap string widget)
    : gmap string widget :=
  map_imap
    (fun key w =>
       Some (match w with
             | TextWidget _ => TextWidget [10%N]
             | EntryWidget _ =>
                 EntryWidget (if bool_decide (key = "entry_date") then today else [])
             end))
    entries.

(** The text [edit_record] puts in the widget of a key. *)
Definition shown_value (key : string) (value : str) : str :=
  if bool_decide (key = "entry_case_no") then _unpad_case_no (Str value) else value.

(** One turn of the loop of [edit_record]: the widget of the key, when
    there is one, receives the column, unpadded for the case number. *)
Definition fill_widget (entries : gmap string widget) (kv : string * str)
    : gmap string widget :=
  let '(key, value) := kv in
  let value :=
    if bool_decide (key = "entry_case_no") then _unpad_case_no (Str value)
    else value in
  match entries !! key with
  | Some w => <[key := set_widget w value]> entries
  | None => entries
  end.

(** The intake form after [edit_record] has loaded a row. *)
Definition edit_form (today : str) (entries : gmap string widget)
    (record : patient_row) : gmap string widget :=
  fold_left fill_widget (zip intake_keys (columns record))
            (clear_entries today entries).

(** The names in the backup folder that are backups. *)
Fixpoint startswith (prefix s : str) : bool :=
  match prefix, s with
  | [], _ => true
  | _ :: _, [] => false
  | p :: prefix', c :: s' => (p =? c)%N && startswith prefix' s'
  end.

Definition endswith (suffix s : str) : bool := startswith (rev suffix) (rev s).

Definition is_backup (f : str) : bool :=
  startswith (lit "patients_backup_") f && endswith (lit ".db") f.

Definition name_le (f g : str) : Prop := str_leb f g = true.

#[global] Instance name_le_dec : RelDecision name_le.
Proof. intros f g. unfold name_le. apply _. Defined.

(** [backup_database] on the listing of the backup folder, when the
    database file exists and the file operations succeed: the database is
    copied under a name made of the time stamp, and when there are more than
    ten backups all but the last ten in name order are removed. *)
Definition backup_database (timestamp : str) (folder : list str) : list str :=
  let backup_file := lit "patients_backup_" ++ timestamp ++ lit ".db" in
  let folder :=
    if bool_decide (backup_file ∈ folder) then folder else folder ++ [backup_file] in
  let backup_files := merge_sort name_le (List.filter is_backup folder) in
  if (10 <? length backup_files)%nat then
    let old := take (length backup_files - 10) backup_files in
    List.filter (fun f => negb (bool_decide (f ∈ old))) folder
  else folder.

(** [SELECT * FROM patients WHERE id = ?] followed by [fetchone]. *)
Definition fetch_patient (d : db) (patient : Z) : option patient_row :=
  List.find (fun r => (row_id r =? patient)%Z) (patients d).

(** A patient row as the program writes it: the values [get_patient_data]
    reads from a form that passes [validate_required_fields]. *)
Definition patient_row_ok (r : patient_row) : Prop :=
  exists entries,
    validate_required_fields entries = true
    /\ columns r = get_patient_data entries.

(** A visit row as [save_followup] writes it. *)
Definition visit_row_ok (v : visit_row) : Prop :=
  strip (visit_date v) <> [] /\ treatment v <> []
  /\ strip (complaints v) = complaints v
  /\ strip (new_modalities v) = new_modalities v
  /\ strip (treatment v) = treatment v.

(** The invariant of the program state: keys are distinct and below the
    counters, rows are as the handlers write them, the loaded patient has a
    key that was issued. *)
Definition state_wf (a : PatientManagerApp) : Prop :=
  let d := store a in
  NoDup (List.map row_id (patients d))
  /\ Forall (fun r => (row_id r < next_patient_id d)%Z) (patients d)
  /\ Forall patient_row_ok (patients d)
  /\ Forall visit_row_ok (visits d)
  /\ Forall (fun v => (patient_id v < next_patient_id d)%Z) (visits d)
  /\ (forall p, Store.current_patient_id a = Some p -> (p < next_patient_id d)%Z).

End View.
Import Py Codec.

Example encode_7 : encode (lit "7") = lit "00007".
Proof. reflexivity. Qed.

Example decode_00007 : decode (lit "00007") = lit "7".
Proof. reflexivity. Qed.

Example encode_T12 : encode (lit "T12") = lit "00012".
Proof. reflexivity. Qed.

Example encode_all_zero : encode (lit "000") = lit "00000" /\ decode (lit "00000") = lit "0".
Proof. split; reflexivity. Qed.

Example encode_TEST : encode (lit " TEST ") = lit "TEST".
Proof. reflexivity. Qed.

Example decode_newline : decode (lit "007" ++ [10%N]) = lit "7" ++ [10%N].
Proof. reflexivity. Qed.

(* ===================================================================== *)
(** ** Facts about the codec *)
(* ===================================================================== *)

Section CodecFacts.

Lemma ascii_digit_range c :
  is_ascii_digit c = true <-> (48 <= c <= 57)%N.
Proof.
  unfold is_ascii_digit.
  rewrite andb_true_iff, !N.leb_le. tauto.
Qed.

Lemma ascii_digit_cases c :
  is_ascii_digit c = true ->
  c = 48%N \/ c = 49%N \/ c = 50%N \/ c = 51%N \/ c = 52%N \/
  c = 53%N \/ c = 54%N \/ c = 55%N \/ c = 56%N \/ c = 57%N.
Proof. rewrite ascii_digit_range. lia. Qed.

Lemma ascii_digit_isdecimal c : is_ascii_digit c = true -> isdecimal c = true.
Proof.
  intros H. apply ascii_digit_range in H.
  unfold isdecimal, Nd_zeros. cbn [existsb].
  replace ((48 <=? c) && (c <? 48 + 10))%N with true; [reflexivity|].
  symmetry. rewrite andb_true_iff, N.leb_le, N.ltb_lt. lia.
Qed.

Lemma space_not_digit c : isspace c = true -> is_ascii_digit c = false.
Proof.
  intros H. destruct (is_ascii_digit c) eqn:E; [|reflexivity].
  apply ascii_digit_range in E.
  unfold isspace in H.
  repeat (apply orb_true_iff in H; destruct H as [H|H]);
    repeat (apply andb_true_iff in H; destruct H as [H H']);
    rewrite ?N.leb_le, ?N.eqb_eq in *; lia.
Qed.

Lemma digit_not_space c : is_ascii_digit c = true -> isspace c = false.
Proof.
  intros H. destruct (isspace c) eqn:E; [|reflexivity].
  apply space_not_digit in E. congruence.
Qed.

(** *** Stripping keeps the digits *)

Lemma filter_lstrip_by p q (s : str) :
  (forall c, p c = true -> q c = false) ->
  List.filter q (lstrip_by p s) = List.filter q s.
Proof.
  intros Hpq. induction s as [|c s IH]; [reflexivity|].
  cbn [lstrip_by]. destruct (p c) eqn:E; [|reflexivity].
  rewrite IH. cbn [List.filter]. rewrite (Hpq c E). reflexivity.
Qed.

Lemma filter_rev_comm (q : N -> bool) (s : str) :
  List.filter q (rev s) = rev (List.filter q s).
Proof.
  induction s as [|c s IH]; [reflexivity|].
  cbn [rev List.filter]. rewrite List.filter_app, IH. cbn [List.filter].
  destruct (q c); cbn [rev]; [reflexivity|]. apply app_nil_r.
Qed.

Lemma numeric_part_strip s : numeric_part (strip s) = numeric_part s.
Proof.
  unfold numeric_part, strip, rstrip_by.
  rewrite filter_rev_comm, filter_lstrip_by by apply space_not_digit.
  rewrite filter_rev_comm, rev_involutive.
  apply filter_lstrip_by, space_not_digit.
Qed.

Lemma numeric_part_all_digits s : all_digits (numeric_part s) = true.
Proof.
  unfold all_digits, numeric_part. apply forallb_forall.
  intros c Hc. apply List.filter_In in Hc. tauto.
Qed.

Lemma numeric_part_digits ds :
  all_digits ds = true -> numeric_part ds = ds.
Proof.
  unfold all_digits, numeric_part. induction ds as [|c ds IH]; [reflexivity|].
  cbn [forallb List.filter]. intros H. apply andb_true_iff in H as [Hc Hds].
  rewrite Hc, IH by assumption. reflexivity.
Qed.

Lemma has_digit_numeric_part s :
  has_digit s = true <-> numeric_part s <> [].
Proof.
  unfold has_digit, numeric_part. induction s as [|c s IH].
  - cbn. split; [discriminate|congruence].
  - cbn [existsb List.filter]. destruct (is_ascii_digit c); cbn [orb].
    + split; [discriminate|reflexivity].
    + exact IH.
Qed.

Lemma lstrip_digits ds :
  all_digits ds = true -> lstrip_by isspace ds = ds.
Proof.
  destruct ds as [|c ds]; [reflexivity|].
  unfold all_digits. cbn [forallb lstrip_by]. intros H.
  apply andb_true_iff in H as [Hc _].
  rewrite (digit_not_space c Hc). reflexivity.
Qed.

Lemma all_digits_rev ds : all_digits (rev ds) = all_digits ds.
Proof.
  unfold all_digits. induction ds as [|c ds IH]; [reflexivity|].
  cbn [rev forallb]. rewrite forallb_app, IH. cbn [forallb].
  rewrite andb_true_r. apply andb_comm.
Qed.

Lemma strip_digits ds : all_digits ds = true -> strip ds = ds.
Proof.
  intros H. unfold strip, rstrip_by.
  rewrite (lstrip_digits ds H), lstrip_digits by (rewrite all_digits_rev; exact H).
  apply rev_involutive.
Qed.

(** *** Padding *)

Lemma zfill_digits w ds :
  all_digits ds = true ->
  zfill w ds = repeat 48%N (w - length ds) ++ ds.
Proof.
  intros H. unfold zfill.
  destruct (Nat.leb_spec w (length ds)) as [Hle|Hlt].
  - replace (w - length ds)%nat with 0%nat by lia. reflexivity.
  - destruct ds as [|c r]; [symmetry; apply app_nil_r|].
    unfold all_digits in H. cbn [forallb] in H.
    apply andb_true_iff in H as [Hc _]. apply ascii_digit_range in Hc.
    replace ((c =? 43) || (c =? 45))%N with false; [reflexivity|].
    symmetry. apply orb_false_iff. rewrite !N.eqb_neq. lia.
Qed.

Lemma all_digits_repeat_zero k : all_digits (repeat 48%N k) = true.
Proof. induction k; [reflexivity|]. cbn. exact IHk. Qed.

Lemma all_digits_app a b :
  all_digits (a ++ b) = all_digits a && all_digits b.
Proof. apply forallb_app. Qed.

Lemma zfill_all_digits w ds :
  all_digits ds = true -> all_digits (zfill w ds) = true.
Proof.
  intros H. rewrite zfill_digits, all_digits_app, all_digits_repeat_zero, H by exact H.
  reflexivity.
Qed.

Lemma zfill_length w ds :
  all_digits ds = true -> length (zfill w ds) = Nat.max w (length ds).
Proof.
  intros H. rewrite zfill_digits, length_app, repeat_length by exact H. lia.
Qed.

(** What [encode] does to a string that has a digit. *)
Lemma encode_digit_bearing s :
  has_digit s = true ->
  encode s = zfill CASE_NO_PADDING_SIZE (numeric_part s).
Proof.
  intros H. apply has_digit_numeric_part in H.
  unfold encode, pad_case_no.
  rewrite numeric_part_strip.
  destruct (strip s) as [|c r] eqn:Es.
  - exfalso. apply H. rewrite <- numeric_part_strip, Es. reflexivity.
  - destruct (numeric_part s); [congruence|reflexivity].
Qed.

(** What [encode] does to a string that has no digit. *)
Lemma encode_no_digit s : has_digit s = false -> encode s = strip s.
Proof.
  intros H. unfold encode, pad_case_no.
  destruct (strip s) as [|c r] eqn:Es; [reflexivity|].
  rewrite <- Es, numeric_part_strip.
  destruct (numeric_part s) eqn:En; [reflexivity|].
  assert (has_digit s = true) by (apply has_digit_numeric_part; congruence).
  congruence.
Qed.

End CodecFacts.

Section DecodeFacts.

(** *** Matching the padded pattern *)

Lemma match_digits_end_digits st ds :
  all_digits ds = true ->
  match_digits_end st ds = st || negb (bool_decide (ds = [])).
Proof.
  intros H. destruct ds as [|c r].
  - cbn. rewrite orb_false_r. reflexivity.
  - unfold all_digits in H. cbn [forallb] in H.
    apply andb_true_iff in H as [Hc Hr].
    cbn [match_digits_end]. rewrite (ascii_digit_isdecimal c Hc). cbn [andb].
    assert (Hm : forall r', all_digits r' = true -> match_digits_end true r' = true).
    { clear. induction r' as [|d r' IH]; [reflexivity|].
      unfold all_digits. cbn [forallb match_digits_end]. intros H.
      apply andb_true_iff in H as [Hd Hr'].
      rewrite (ascii_digit_isdecimal d Hd), (IH Hr'). reflexivity. }
    rewrite (Hm r Hr). cbn. rewrite orb_true_r. reflexivity.
Qed.

Lemma match_padded_nonempty s : match_padded s = true -> s <> [].
Proof. destruct s; [discriminate|congruence]. Qed.

(** On a digit string the pattern matches exactly when the string is a zero
    followed by something. *)
Lemma match_padded_digits c r :
  all_digits (c :: r) = true ->
  match_padded (c :: r) = (c =? 48)%N && negb (bool_decide (r = [])).
Proof.
  intros H. unfold all_digits in H. cbn [forallb] in H.
  apply andb_true_iff in H as [_ Hr].
  cbn [match_padded]. f_equal.
  rewrite (match_digits_end_digits false r Hr). cbn [orb].
  destruct r as [|d r']; [reflexivity|].
  cbn. apply orb_true_r.
Qed.

Lemma lstrip_zero_repeat k ds :
  lstrip_zero (repeat 48%N k ++ ds) = lstrip_zero ds.
Proof. induction k; [reflexivity|]. cbn. exact IHk. Qed.

Lemma canonical_repeat k ds : canonical (repeat 48%N k ++ ds) = canonical ds.
Proof. unfold canonical. rewrite lstrip_zero_repeat. reflexivity. Qed.

(** [decode] on a non-empty digit string is its display form. *)
Lemma decode_digits ds :
  all_digits ds = true -> ds <> [] -> decode ds = canonical ds.
Proof.
  intros H Hne. destruct ds as [|c r]; [congruence|].
  unfold decode, _unpad_case_no. rewrite (match_padded_digits c r H).
  destruct (N.eqb_spec c 48) as [->|Hc]; cbn [andb].
  - destruct r as [|d r']; [reflexivity|]. reflexivity.
  - unfold canonical, lstrip_zero. cbn [lstrip_by].
    destruct (N.eqb_spec 48 c) as [E|_]; [congruence|reflexivity].
Qed.

(** A string without ASCII digits is not touched by [decode]. *)
Lemma decode_no_digit s : has_digit s = false -> decode s = s.
Proof.
  intros H. unfold decode, _unpad_case_no.
  destruct s as [|c r]; [reflexivity|].
  cbn [match_padded]. unfold has_digit in H. cbn [existsb] in H.
  apply orb_false_iff in H as [Hc _].
  destruct (N.eqb_spec c 48) as [->|_]; [discriminate|reflexivity].
Qed.

(** *** Decimal representation *)

Local Abbreviation horner := (fun acc c => 10 * acc + (c - 48))%N.

Lemma of_uint_acc_horner u acc :
  Npos (Pos.of_uint_acc u acc) = fold_left horner (chars_of_uint u) (Npos acc).
Proof.
  revert acc. induction u; intros acc; cbn [Pos.of_uint_acc chars_of_uint fold_left];
    [reflexivity|..]; rewrite IHu; f_equal; lia.
Qed.

Lemma of_uint_horner u : N.of_uint u = int_of_digits (chars_of_uint u).
Proof.
  unfold N.of_uint, int_of_digits.
  induction u; cbn [Pos.of_uint chars_of_uint fold_left];
    [reflexivity| exact IHu |..]; rewrite of_uint_acc_horner; f_equal.
Qed.

Lemma chars_of_nzhead u :
  chars_of_uint (Decimal.nzhead u) = lstrip_zero (chars_of_uint u).
Proof. induction u; cbn; try reflexivity. exact IHu. Qed.

Lemma chars_of_unorm u :
  chars_of_uint (Decimal.unorm u) = canonical (chars_of_uint u).
Proof.
  unfold Decimal.unorm, canonical. rewrite <- chars_of_nzhead.
  destruct (Decimal.nzhead u); reflexivity.
Qed.

Lemma digits_are_uint ds :
  all_digits ds = true -> exists u, chars_of_uint u = ds.
Proof.
  unfold all_digits. induction ds as [|c r IH]; intros H.
  - exists Decimal.Nil. reflexivity.
  - cbn [forallb] in H. apply andb_true_iff in H as [Hc Hr].
    destruct (IH Hr) as [u <-].
    destruct (ascii_digit_cases c Hc) as [->|[->|[->|[->|[->|[->|[->|[->|[->| ->]]]]]]]]].
    + exists (Decimal.D0 u). reflexivity.
    + exists (Decimal.D1 u). reflexivity.
    + exists (Decimal.D2 u). reflexivity.
    + exists (Decimal.D3 u). reflexivity.
    + exists (Decimal.D4 u). reflexivity.
    + exists (Decimal.D5 u). reflexivity.
    + exists (Decimal.D6 u). reflexivity.
    + exists (Decimal.D7 u). reflexivity.
    + exists (Decimal.D8 u). reflexivity.
    + exists (Decimal.D9 u). reflexivity.
Qed.

(** Printing the number that a digit string denotes gives its display
    form. *)
Lemma str_of_int_of_digits ds :
  all_digits ds = true -> str_of_int (int_of_digits ds) = canonical ds.
Proof.
  intros H. destruct (digits_are_uint ds H) as [u <-].
  unfold str_of_int. rewrite <- of_uint_horner, DecimalN.Unsigned.to_of.
  apply chars_of_unorm.
Qed.

Lemma int_of_digits_repeat_zero k ds :
  int_of_digits (repeat 48%N k ++ ds) = int_of_digits ds.
Proof.
  unfold int_of_digits. rewrite fold_left_app. f_equal.
  induction k; [reflexivity|]. cbn [repeat fold_left]. exact IHk.
Qed.

End DecodeFacts.

Section OrderFacts.

(** *** Lexicographic and numeric order on digit strings *)

Local Abbreviation horner := (fun acc c => 10 * acc + (c - 48))%N.

Lemma horner_lt (x y : str) (a b : N) :
  all_digits x = true -> all_digits y = true -> length x = length y ->
  (a < b)%N -> (fold_left horner x a < fold_left horner y b)%N.
Proof.
  revert y a b. induction x as [|c x IH]; intros [|d y] a b Hx Hy Hlen Hab;
    try discriminate; [exact Hab|].
  unfold all_digits in Hx, Hy. cbn [forallb] in Hx, Hy.
  apply andb_true_iff in Hx as [Hc Hx]. apply andb_true_iff in Hy as [Hd Hy].
  apply ascii_digit_range in Hc, Hd.
  cbn [fold_left]. apply IH; [exact Hx|exact Hy|cbn in Hlen; lia|lia].
Qed.

Lemma str_leb_horner (x y : str) (a : N) :
  all_digits x = true -> all_digits y = true -> length x = length y ->
  str_leb x y = true <-> (fold_left horner x a <= fold_left horner y a)%N.
Proof.
  revert y a. induction x as [|c x IH]; intros [|d y] a Hx Hy Hlen;
    try discriminate.
  - cbn. split; [lia|reflexivity].
  - pose proof Hx as Hx'. pose proof Hy as Hy'.
    unfold all_digits in Hx, Hy. cbn [forallb] in Hx, Hy.
    apply andb_true_iff in Hx as [Hc Hx]. apply andb_true_iff in Hy as [Hd Hy].
    apply ascii_digit_range in Hc, Hd.
    assert (Hl : length x = length y) by (cbn in Hlen; lia).
    cbn [str_leb fold_left].
    destruct (N.ltb_spec c d) as [Hlt|Hge].
    + split; [intros _|reflexivity].
      apply N.lt_le_incl, horner_lt; [exact Hx|exact Hy|exact Hl|lia].
    + destruct (N.eqb_spec c d) as [->|Hne].
      * apply IH; assumption.
      * split; [discriminate|]. intros Hle. exfalso.
        assert (fold_left horner y (10 * a + (d - 48)) <
                fold_left horner x (10 * a + (c - 48)))%N
          by (apply horner_lt; [exact Hy|exact Hx|lia|lia]).
        lia.
Qed.

(** On digit strings of one length the string order is the numeric order. *)
Lemma str_leb_int_of_digits (x y : str) :
  all_digits x = true -> all_digits y = true -> length x = length y ->
  str_leb x y = true <-> (int_of_digits x <= int_of_digits y)%N.
Proof. intros. unfold int_of_digits. apply str_leb_horner; assumption. Qed.

End OrderFacts.

(* ===================================================================== *)
(** ** The claims about the codec *)
(* ===================================================================== *)

(** C1. Round trip: for every input with at least one digit, decoding the
    encoded form gives the decimal representation of the number its digits
    denote, that is the digits with the leading zeros removed, and ["0"]
    when nothing but zeros is left. *)
Theorem decode_encode_roundtrip (s : str) :
  has_digit s = true ->
  decode (encode s) = str_of_int (digits_value s)
  /\ decode (encode s) = canonical (numeric_part s)
  /\ (lstrip_zero (numeric_part s) = [] -> decode (encode s) = lit "0").
Proof.
  intros H.
  pose proof (numeric_part_all_digits s) as Hd.
  assert (E : decode (encode s) = canonical (numeric_part s)).
  { rewrite (encode_digit_bearing s H).
    rewrite decode_digits.
    - rewrite zfill_digits by exact Hd. apply canonical_repeat.
    - apply zfill_all_digits, Hd.
    - intros E0. apply (f_equal (@length N)) in E0.
      rewrite zfill_length in E0 by exact Hd.
      unfold CASE_NO_PADDING_SIZE in E0. cbn [length] in E0. lia. }
  split; [|split].
  - rewrite E. unfold digits_value. symmetry. apply str_of_int_of_digits, Hd.
  - exact E.
  - intros Hz. rewrite E. unfold canonical. rewrite Hz. reflexivity.
Qed.

Lemma decode_encode_roundtrip_witness :
  has_digit (lit "a0b07") = true
  /\ (decode (encode (lit "a0b07")) = str_of_int (digits_value (lit "a0b07"))
      /\ decode (encode (lit "a0b07")) = canonical (numeric_part (lit "a0b07"))
      /\ (lstrip_zero (numeric_part (lit "a0b07")) = [] ->
          decode (encode (lit "a0b07")) = lit "0")).
Proof.
  split; [reflexivity|].
  apply (decode_encode_roundtrip (lit "a0b07")). reflexivity.
Defined.

(** C2, as stated, fails: with six digits on one side the string order of
    the stored forms and the numeric order disagree. *)
Lemma order_preservation_counterexample :
  ~ (forall a b : str,
        has_digit a = true -> has_digit b = true ->
        str_leb (encode a) (encode b) = true <->
        (digits_value a <= digits_value b)%N).
Proof.
  intros H.
  specialize (H (lit "100000") (lit "99999") eq_refl eq_refl).
  destruct H as [H _]. specialize (H eq_refl).
  vm_compute in H. apply H. reflexivity.
Qed.

(** C2, amended. For inputs whose digit content has at most five digits (the
    padding width), the string order of the stored forms is the numeric
    order of the numbers the digits denote. *)
Theorem order_preservation_within_width (a b : str) :
  has_digit a = true -> has_digit b = true ->
  (length (numeric_part a) <= CASE_NO_PADDING_SIZE)%nat ->
  (length (numeric_part b) <= CASE_NO_PADDING_SIZE)%nat ->
  str_leb (encode a) (encode b) = true <->
  (digits_value a <= digits_value b)%N.
Proof.
  intros Ha Hb La Lb.
  pose proof (numeric_part_all_digits a) as Da.
  pose proof (numeric_part_all_digits b) as Db.
  rewrite (encode_digit_bearing a Ha), (encode_digit_bearing b Hb).
  rewrite str_leb_int_of_digits.
  - rewrite !zfill_digits by assumption.
    rewrite !int_of_digits_repeat_zero. reflexivity.
  - apply zfill_all_digits, Da.
  - apply zfill_all_digits, Db.
  - rewrite !zfill_length by assumption. lia.
Qed.

Lemma order_preservation_within_width_witness :
  has_digit (lit "T12") = true /\ has_digit (lit "9") = true
  /\ (length (numeric_part (lit "T12")) <= CASE_NO_PADDING_SIZE)%nat
  /\ (length (numeric_part (lit "9")) <= CASE_NO_PADDING_SIZE)%nat
  /\ (str_leb (encode (lit "T12")) (encode (lit "9")) = true <->
      (digits_value (lit "T12") <= digits_value (lit "9"))%N).
Proof.
  split; [reflexivity|]. split; [reflexivity|].
  split; [vm_compute; lia|]. split; [vm_compute; lia|].
  apply (order_preservation_within_width (lit "T12") (lit "9"));
    [reflexivity|reflexivity|vm_compute; lia|vm_compute; lia].
Defined.

(** C3, as stated, fails: a stored form with more than five digits and a
    leading zero loses the zero when it is decoded and encoded again. *)
Lemma two_sided_counterexample :
  ~ (forall x : str, (exists s, x = encode s) ->
                     encode (decode x) = encode x).
Proof.
  intros H.
  specialize (H (lit "012345") (ex_intro _ (lit "012345") eq_refl)).
  vm_compute in H. discriminate H.
Qed.

Lemma zfill_canonical ds :
  all_digits ds = true ->
  (0 < length ds <= CASE_NO_PADDING_SIZE)%nat ->
  zfill CASE_NO_PADDING_SIZE (canonical ds) = zfill CASE_NO_PADDING_SIZE ds.
Proof.
  intros H L.
  assert (Hs : exists k r, ds = repeat 48%N k ++ r /\ lstrip_zero r = r
                           /\ all_digits r = true).
  { clear L. induction ds as [|c r IH].
    - exists 0%nat, []. auto.
    - pose proof H as H'. unfold all_digits in H'. cbn [forallb] in H'.
      apply andb_true_iff in H' as [_ Hr].
      destruct (N.eqb_spec 48 c) as [<-|Hc].
      + destruct (IH Hr) as (k & r' & -> & Hr' & Dr').
        exists (S k), r'. auto.
      + exists 0%nat, (c :: r). split; [reflexivity|]. split; [|exact H].
        unfold lstrip_zero. cbn [lstrip_by].
        destruct (N.eqb_spec 48 c); [congruence|reflexivity]. }
  destruct Hs as (k & r & -> & Hr & Dr).
  rewrite canonical_repeat. rewrite length_app, repeat_length in L.
  rewrite (zfill_digits _ (repeat 48%N k ++ r)) by exact H.
  rewrite length_app, repeat_length.
  unfold canonical. rewrite Hr. destruct r as [|c r'].
  - cbn [length] in L. unfold CASE_NO_PADDING_SIZE in *.
    rewrite app_nil_r, <- repeat_app. cbn [length].
    replace (5 - (k + 0) + k)%nat with 5%nat by lia. reflexivity.
  - rewrite zfill_digits by exact Dr.
    rewrite app_assoc, <- repeat_app. do 2 f_equal.
    unfold CASE_NO_PADDING_SIZE in *. cbn [length] in *. lia.
Qed.

Lemma lstrip_zero_all_digits ds :
  all_digits ds = true -> all_digits (lstrip_zero ds) = true.
Proof.
  induction ds as [|c r IH]; [reflexivity|]. intros H.
  unfold lstrip_zero. cbn [lstrip_by]. destruct (48 =? c)%N; [|exact H].
  apply IH. unfold all_digits in H. cbn [forallb] in H.
  apply andb_true_iff in H. tauto.
Qed.

Lemma lstrip_zero_length ds : (length (lstrip_zero ds) <= length ds)%nat.
Proof.
  induction ds as [|c r IH]; [reflexivity|].
  unfold lstrip_zero in *. cbn [lstrip_by]. destruct (48 =? c)%N; cbn [length]; lia.
Qed.

Lemma canonical_all_digits ds :
  all_digits ds = true -> all_digits (canonical ds) = true.
Proof.
  intros H. unfold canonical.
  pose proof (lstrip_zero_all_digits ds H) as H'.
  destruct (lstrip_zero ds); [reflexivity|exact H'].
Qed.

Lemma canonical_nonempty ds : canonical ds <> [].
Proof. unfold canonical. destruct (lstrip_zero ds); discriminate. Qed.

Lemma canonical_length ds :
  (length (canonical ds) <= Nat.max 1 (length ds))%nat.
Proof.
  unfold canonical. pose proof (lstrip_zero_length ds) as H.
  destruct (lstrip_zero ds); cbn in *; lia.
Qed.

Lemma has_digit_all_digits ds :
  all_digits ds = true -> ds <> [] -> has_digit ds = true.
Proof.
  destruct ds as [|c r]; [congruence|]. intros H _.
  unfold all_digits in H. cbn [forallb] in H. apply andb_true_iff in H as [Hc _].
  unfold has_digit. cbn [existsb]. rewrite Hc. reflexivity.
Qed.

(** [encode] on a non-empty digit string only pads. *)
Lemma encode_digits ds :
  all_digits ds = true -> ds <> [] ->
  encode ds = zfill CASE_NO_PADDING_SIZE ds.
Proof.
  intros H Hne. rewrite encode_digit_bearing by (apply has_digit_all_digits; assumption).
  rewrite numeric_part_digits by exact H. reflexivity.
Qed.

(** The image of [encode]: a stripped string without digits, or a digit
    string of at least five characters. *)
Lemma encode_image s :
  (has_digit (encode s) = false)
  \/ (all_digits (encode s) = true
      /\ (CASE_NO_PADDING_SIZE <= length (encode s))%nat).
Proof.
  destruct (has_digit s) eqn:H.
  - right. rewrite (encode_digit_bearing s H).
    pose proof (numeric_part_all_digits s) as D. split.
    + apply zfill_all_digits, D.
    + rewrite zfill_length by exact D. lia.
  - left. rewrite (encode_no_digit s H).
    destruct (has_digit (strip s)) eqn:E; [|reflexivity].
    apply has_digit_numeric_part in E. rewrite numeric_part_strip in E.
    apply has_digit_numeric_part in E. congruence.
Qed.

(** C3, amended. For a value in the image of [encode], encoding the decoded
    value gives the encoding of the value itself exactly when the value is
    not a string of more than five characters that begins with a zero; so
    the law holds for every stored form of the padding width. *)
Theorem two_sided_within_width (x : str) :
  (exists s, x = encode s) ->
  encode (decode x) = encode x <->
  ~ ((CASE_NO_PADDING_SIZE < length x)%nat /\ exists r, x = 48%N :: r).
Proof.
  intros [s ->]. destruct (encode_image s) as [Hn|[D L]].
  - rewrite (decode_no_digit _ Hn). split; [|reflexivity].
    intros _ [_ [r E]]. rewrite E in Hn. discriminate Hn.
  - set (x := encode s) in *. clearbody x.
    pose proof (eq_refl : CASE_NO_PADDING_SIZE = 5%nat) as HW.
    assert (Hne : x <> []).
    { intros ->. cbn [length] in L. lia. }
    rewrite (decode_digits x D Hne).
    rewrite (encode_digits x D Hne).
    rewrite (encode_digits _ (canonical_all_digits x D) (canonical_nonempty x)).
    rewrite (zfill_digits _ x D).
    replace (CASE_NO_PADDING_SIZE - length x)%nat with 0%nat by lia.
    cbn [repeat app].
    destruct (Nat.eq_dec (length x) CASE_NO_PADDING_SIZE) as [E5|N5].
    + rewrite zfill_canonical by (try exact D; lia).
      rewrite zfill_digits by exact D.
      replace (CASE_NO_PADDING_SIZE - length x)%nat with 0%nat by lia.
      split; [|reflexivity]. intros _ [Hlt _]. lia.
    + destruct x as [|c r]; [congruence|].
      destruct (N.eqb_spec 48 c) as [<-|Hc].
      * split.
        -- intros E. exfalso. apply (f_equal (@length N)) in E.
           rewrite zfill_length in E by (apply canonical_all_digits, D).
           pose proof (canonical_length r) as Hc.
           change (canonical (48%N :: r)) with (canonical r) in E.
           cbn [length] in *. lia.
        -- intros Hnot. exfalso. apply Hnot. split; [lia|]. exists r. reflexivity.
      * assert (Ec : canonical (c :: r) = c :: r).
        { unfold canonical, lstrip_zero. cbn [lstrip_by].
          destruct (N.eqb_spec 48 c); [congruence|reflexivity]. }
        rewrite Ec, zfill_digits by exact D.
        replace (CASE_NO_PADDING_SIZE - length (c :: r))%nat with 0%nat by lia.
        split; [|reflexivity]. intros _ [_ [r' E]]. congruence.
Qed.

Lemma two_sided_within_width_witness :
  (exists s, lit "00042" = encode s)
  /\ (encode (decode (lit "00042")) = encode (lit "00042") <->
      ~ ((CASE_NO_PADDING_SIZE < length (lit "00042"))%nat
         /\ exists r, lit "00042" = 48%N :: r)).
Proof.
  assert (H : exists s, lit "00042" = encode s)
    by (exists (lit "x42"); reflexivity).
  split; [exact H|].
  apply (two_sided_within_width (lit "00042")). exact H.
Defined.

(** C4. For an input with at least one digit and at least one character
    that is not a digit, [encode] keeps the digits only and pads them on the
    left with zeros to five characters; ["T12"] becomes ["00012"]. *)
Theorem encode_mixed_alphanumeric (s : str) :
  has_digit s = true ->
  existsb (fun c => negb (is_ascii_digit c)) s = true ->
  encode s = zfill CASE_NO_PADDING_SIZE (List.filter is_ascii_digit s)
  /\ encode s = repeat 48%N (CASE_NO_PADDING_SIZE - length (numeric_part s))
                  ++ numeric_part s
  /\ all_digits (encode s) = true
  /\ encode (lit "T12") = lit "00012".
Proof.
  intros H _. pose proof (numeric_part_all_digits s) as D.
  rewrite (encode_digit_bearing s H).
  split; [reflexivity|]. split; [apply zfill_digits, D|].
  split; [apply zfill_all_digits, D|reflexivity].
Qed.

Lemma encode_mixed_alphanumeric_witness :
  has_digit (lit "T12") = true
  /\ existsb (fun c => negb (is_ascii_digit c)) (lit "T12") = true
  /\ (encode (lit "T12")
      = zfill CASE_NO_PADDING_SIZE (List.filter is_ascii_digit (lit "T12"))
      /\ encode (lit "T12")
         = repeat 48%N (CASE_NO_PADDING_SIZE - length (numeric_part (lit "T12")))
             ++ numeric_part (lit "T12")
      /\ all_digits (encode (lit "T12")) = true
      /\ encode (lit "T12") = lit "00012").
Proof.
  split; [reflexivity|]. split; [reflexivity|].
  apply (encode_mixed_alphanumeric (lit "T12")); reflexivity.
Defined.

(* ===================================================================== *)
(** ** Facts about the report composer *)
(* ===================================================================== *)

Import Report.

Example navy_hex : NAVY_HEX = lit "#0a2859".
Proof. reflexivity. Qed.

Example teal_hex : TEAL_HEX = lit "#007f7f".
Proof. reflexivity. Qed.

Section ComposerFacts.

Implicit Types (intake_data : gmap string value) (visits : list visit).

Lemma intake_story_length intake_data : length (intake_story intake_data) = 31%nat.
Proof. reflexivity. Qed.

(** The loop only appends: its result is the story it started from followed
    by one block per visit, numbered from [i + 1]. *)
Lemma visit_loop_blocks i visits (story : list flowable) :
  visit_loop i visits story
  = story ++ mjoin (imap (fun j v => visit_block (i + j + 1) v) visits).
Proof.
  revert i story. induction visits as [|v rest IH]; intros i story.
  - cbn. symmetry. apply app_nil_r.
  - cbn [visit_loop imap mjoin list_join]. rewrite IH.
    rewrite <- !app_assoc. cbn [app]. unfold visit_block at 2.
    rewrite Nat.add_0_r. cbn [app]. do 5 f_equal.
    apply imap_ext. intros j w _. cbn. f_equal. lia.
Qed.

Lemma compose_story_blocks intake_data visits :
  compose_story intake_data visits
  = intake_story intake_data
    ++ match visits with
       | [] => []
       | _ :: _ =>
           [PageBreak; visit_title; Spacer 1 25]
           ++ mjoin (imap (fun i v => visit_block (i + 1) v) visits)
       end.
Proof.
  unfold compose_story. destruct visits as [|v rest].
  - symmetry. apply app_nil_r.
  - rewrite visit_loop_blocks, <- !app_assoc. reflexivity.
Qed.

Lemma filter_page_break_intake intake_data :
  List.filter is_page_break (intake_story intake_data) = [].
Proof. reflexivity. Qed.

Lemma filter_page_break_blocks (f : nat -> nat) visits :
  List.filter is_page_break (mjoin (imap (fun i v => visit_block (f i) v) visits)) = [].
Proof.
  revert f. induction visits as [|v rest IH]; intros f; [reflexivity|].
  cbn [imap mjoin list_join]. rewrite List.filter_app.
  change (imap ((fun i v => visit_block (f i) v) ∘ S) rest)
    with (imap (fun i v => visit_block ((f ∘ S) i) v) rest).
  rewrite IH. reflexivity.
Qed.

Lemma visit_title_not_in_intake intake_data :
  ~ In visit_title (intake_story intake_data).
Proof.
  unfold intake_story, add_bulleted_text_section, visit_title. cbn [app In].
  intros H. repeat (destruct H as [H|H]; [discriminate H|]). exact H.
Qed.

Lemma visit_title_not_in_blocks (f : nat -> nat) visits :
  ~ In visit_title (mjoin (imap (fun i v => visit_block (f i) v) visits)).
Proof.
  revert f. induction visits as [|v rest IH]; intros f; [intros []|].
  cbn [imap mjoin list_join]. rewrite in_app_iff. intros [H|H].
  - unfold visit_block, visit_title in H. cbn [In] in H.
    repeat (destruct H as [H|H]; [discriminate H|]). exact H.
  - exact (IH (f ∘ S) H).
Qed.

Lemma filter_visit_heading_blocks (f : nat -> nat) visits :
  List.filter is_visit_heading (mjoin (imap (fun i v => visit_block (f i) v) visits))
  = imap (fun i v => visit_heading (f i) (v_date v)) visits.
Proof.
  revert f. induction visits as [|v rest IH]; intros f; [reflexivity|].
  cbn [imap mjoin list_join]. rewrite List.filter_app.
  change (imap ((fun i v => visit_block (f i) v) ∘ S) rest)
    with (imap (fun i v => visit_block ((f ∘ S) i) v) rest).
  rewrite IH. reflexivity.
Qed.

(** The placeholder rule where the source applies [or 'N/A']: a missing key,
    [None] and the empty string all give ["N/A"]. *)
Lemma text_or_NA_placeholder (x : value) :
  truthy x = false -> text_or_NA x = NA.
Proof. intros H. unfold text_or_NA, or_. rewrite H. reflexivity. Qed.

Lemma free_text_placeholder intake_data (title key : string) :
  intake_data !! key = None \/ intake_data !! key = Some (Str []) ->
  add_bulleted_text_section intake_data title key
  = [section_heading title; Paragraph NA TEXT_BLOCK].
Proof.
  intros H. unfold add_bulleted_text_section, get.
  destruct H as [-> | ->]; reflexivity.
Qed.

Lemma grid_value_placeholder intake_data (key : string) :
  intake_data !! key = None \/ intake_data !! key = Some (Str []) ->
  grid_value intake_data key = CellParagraph NA BODY.
Proof.
  intros H. unfold grid_value, get_or_NA.
  destruct H as [-> | ->]; reflexivity.
Qed.

(** Where the source has [intake_data.get(key, 'N/A')] only, a missing key
    gives the placeholder and a present value is passed on as it is. *)
Lemma get_or_NA_missing intake_data (key : string) :
  intake_data !! key = None -> get_or_NA intake_data key = NA.
Proof. intros H. unfold get_or_NA. rewrite H. reflexivity. Qed.

Lemma get_or_NA_present intake_data (key : string) (x : value) :
  intake_data !! key = Some x -> get_or_NA intake_data key = x.
Proof. intros H. unfold get_or_NA. rewrite H. reflexivity. Qed.

End ComposerFacts.

(* ===================================================================== *)
(** ** The claims about the report composer *)
(* ===================================================================== *)

(** C5, evaluated where it fails. With the weight stored as the empty
    string, the vitals table of the story shows an empty paragraph next to
    the "Wt" label, while the empty diagnosis of the same mapping is shown as
    "N/A". *)
Theorem vitals_blank_not_placeholder :
  compose_story intake_blank_weight [] !! 21%nat
  = Some (Table
            [ [ label "<b>Wt:</b>"; CellParagraph (Str []) BODY;
                label "<b>B.P.:</b>"; CellParagraph NA BODY ];
              [ label "<b>Pulse:</b>"; CellParagraph NA BODY;
                label "<b>Temp:</b>"; CellParagraph NA BODY ] ]
            four_columns grid_style)
  /\ compose_story intake_blank_weight [] !! 28%nat
     = Some (Paragraph NA TEXT_BLOCK).
Proof. split; vm_compute; reflexivity. Qed.

(** C6. The story has a page break, and has the title paragraph of the visit
    section ("VISIT HISTORY / FOLLOW-UPS", underlined, in the title style),
    exactly when the visit list is not empty; then the page break is the
    flowable right after the 31 of the intake part and the title the one
    right after it, and it is the only page break. With an empty visit list
    the story is the intake part alone. *)
Theorem visit_section_conditional
    (intake_data : gmap string value) (visits : list visit) :
  let title := Paragraph (Str (lit "<u>VISIT HISTORY / FOLLOW-UPS</u>")) H_TITLE in
  let story := compose_story intake_data visits in
  (In PageBreak story <-> visits <> [])
  /\ (In title story <-> visits <> [])
  /\ (exists rest,
        story
        = intake_story intake_data
          ++ (if bool_decide (visits = []) then []
              else PageBreak :: title :: rest)
        /\ ~ In PageBreak rest /\ ~ In title rest)
  /\ (visits <> [] ->
        story !! 31%nat = Some PageBreak /\ story !! 32%nat = Some title)
  /\ (visits = [] -> length story = 31%nat)
  /\ length (List.filter is_page_break story)
     = (if bool_decide (visits = []) then 0 else 1)%nat.
Proof.
  cbv zeta. change (Paragraph (Str (lit "<u>VISIT HISTORY / FOLLOW-UPS</u>")) H_TITLE)
    with visit_title.
  assert (Hpb : forall l, In PageBreak l -> List.filter is_page_break l <> []).
  { intros l Hin E.
    assert (Hf : In PageBreak (List.filter is_page_break l))
      by (apply List.filter_In; split; [exact Hin|reflexivity]).
    rewrite E in Hf. exact Hf. }
  rewrite compose_story_blocks. destruct visits as [|v rest].
  - rewrite app_nil_r. cbn [bool_decide]. rewrite bool_decide_eq_true_2 by reflexivity.
    split; [|split; [|split; [|split; [|split]]]].
    + split; [|congruence]. intros H. exfalso.
      apply (Hpb _ H), filter_page_break_intake.
    + split; [|congruence]. intros H. exfalso.
      exact (visit_title_not_in_intake intake_data H).
    + exists []. rewrite app_nil_r. split; [reflexivity|]. split; intros [].
    + congruence.
    + intros _. reflexivity.
    + rewrite filter_page_break_intake. reflexivity.
  - rewrite bool_decide_eq_false_2 by discriminate.
    set (blocks := mjoin (imap (fun i w => visit_block (i + 1) w) (v :: rest))).
    assert (Hb1 : ~ In PageBreak (Spacer 1 25 :: blocks)).
    { intros [H|H]; [discriminate H|].
      apply (Hpb _ H). apply filter_page_break_blocks. }
    assert (Hb2 : ~ In visit_title (Spacer 1 25 :: blocks)).
    { intros [H|H]; [discriminate H|].
      exact (visit_title_not_in_blocks (fun i => (i + 1)%nat) _ H). }
    split; [|split; [|split; [|split; [|split]]]].
    + split; [discriminate|]. intros _. apply in_app_iff. right. left. reflexivity.
    + split; [discriminate|]. intros _. apply in_app_iff. right. right. left. reflexivity.
    + exists (Spacer 1 25 :: blocks). split; [reflexivity|]. split; assumption.
    + intros _. split; reflexivity.
    + discriminate.
    + rewrite List.filter_app, filter_page_break_intake. cbn [app List.filter is_page_break].
      unfold blocks. rewrite filter_page_break_blocks. reflexivity.
Qed.

Lemma text_or_NA_cases (x : value) :
  text_or_NA x
  = Str match x with
        | None_ => lit "N/A"
        | Str [] => lit "N/A"
        | Str (c :: s) => replace_newline (c :: s)
        end.
Proof. destruct x as [|[|c s]]; reflexivity. Qed.

(** C7. The part of the story after the intake part and the three opening
    flowables of the visit section is one block per visit, in the order of
    the visit list: the i-th block (from 1) is the sub-heading
    "Visit i: <date_i>", then the table whose three rows are the bold labels
    "Complaints/Changes:", "New Modalities:" and "Treatment (Remedy/Dose):"
    each next to the text of that field of the visit ("N/A" for a missing or
    empty field, newlines as "<br/>"), then a spacer. The story has exactly
    as many visit sub-headings as there are visits. *)
Theorem visit_blocks_in_input_order
    (intake_data : gmap string value) (visits : list visit) :
  let field (x : value) : cell :=
    CellParagraph
      (Str match x with
           | None_ => lit "N/A"
           | Str [] => lit "N/A"
           | Str (c :: s) => replace_newline (c :: s)
           end) BODY in
  let block (i : nat) (v : visit) : list flowable :=
    [ Paragraph
        (Str (lit "Visit " ++ str_of_int (N.of_nat (i + 1))
                ++ lit ": <font color='black'>" ++ str_of (v_date v)
                ++ lit "</font>")) H_VISIT;
      Table
        [ [ CellParagraph (Str (lit "<b>Complaints/Changes:</b>")) BODY_BOLD;
            field (v_complaints v) ];
          [ CellParagraph (Str (lit "<b>New Modalities:</b>")) BODY_BOLD;
            field (v_new_modalities v) ];
          [ CellParagraph (Str (lit "<b>Treatment (Remedy/Dose):</b>")) BODY_BOLD;
            field (v_treatment v) ] ]
        [2 # 10; 8 # 10]
        [ Cmd "VALIGN" (0, 0)%Z (-1, -1)%Z ["TOP"];
          Cmd "LEFTPADDING" (0, 0)%Z (-1, -1)%Z ["0"];
          Cmd "RIGHTPADDING" (0, 0)%Z (-1, -1)%Z ["0"];
          Cmd "BOTTOMPADDING" (0, 0)%Z (-1, -1)%Z ["2"];
          Cmd "TOPPADDING" (0, 0)%Z (-1, -1)%Z ["2"];
          Cmd "LINEBELOW" (0, 2)%Z (-1, 2)%Z ["0.5"; "lightgrey"] ];
      Spacer 1 8 ] in
  take 31 (compose_story intake_data visits) = intake_story intake_data
  /\ drop 34 (compose_story intake_data visits) = mjoin (imap block visits)
  /\ List.filter is_visit_heading (compose_story intake_data visits)
     = imap (fun i v =>
               Paragraph
                 (Str (lit "Visit " ++ str_of_int (N.of_nat (i + 1))
                         ++ lit ": <font color='black'>" ++ str_of (v_date v)
                         ++ lit "</font>")) H_VISIT) visits
  /\ length (List.filter is_visit_heading (compose_story intake_data visits))
     = length visits
  /\ drop 34 (compose_story intake_data
                [ Visit (Str (lit "05-01-2024")) (Str (lit "a" ++ [10%N] ++ lit "b"))
                        None_ (Str []);
                  Visit (Str (lit "20-01-2024")) (Str (lit "better")) (Str (lit "none"))
                        (Str (lit "Sac lac")) ])
     = [ Paragraph (Str (lit "Visit 1: <font color='black'>05-01-2024</font>")) H_VISIT;
         Table
           [ [ CellParagraph (Str (lit "<b>Complaints/Changes:</b>")) BODY_BOLD;
               CellParagraph (Str (lit "a<br/>b")) BODY ];
             [ CellParagraph (Str (lit "<b>New Modalities:</b>")) BODY_BOLD;
               CellParagraph (Str (lit "N/A")) BODY ];
             [ CellParagraph (Str (lit "<b>Treatment (Remedy/Dose):</b>")) BODY_BOLD;
               CellParagraph (Str (lit "N/A")) BODY ] ]
           [2 # 10; 8 # 10]
           [ Cmd "VALIGN" (0, 0)%Z (-1, -1)%Z ["TOP"];
             Cmd "LEFTPADDING" (0, 0)%Z (-1, -1)%Z ["0"];
             Cmd "RIGHTPADDING" (0, 0)%Z (-1, -1)%Z ["0"];
             Cmd "BOTTOMPADDING" (0, 0)%Z (-1, -1)%Z ["2"];
             Cmd "TOPPADDING" (0, 0)%Z (-1, -1)%Z ["2"];
             Cmd "LINEBELOW" (0, 2)%Z (-1, 2)%Z ["0.5"; "lightgrey"] ];
         Spacer 1 8;
         Paragraph (Str (lit "Visit 2: <font color='black'>20-01-2024</font>")) H_VISIT;
         Table
           [ [ CellParagraph (Str (lit "<b>Complaints/Changes:</b>")) BODY_BOLD;
               CellParagraph (Str (lit "better")) BODY ];
             [ CellParagraph (Str (lit "<b>New Modalities:</b>")) BODY_BOLD;
               CellParagraph (Str (lit "none")) BODY ];
             [ CellParagraph (Str (lit "<b>Treatment (Remedy/Dose):</b>")) BODY_BOLD;
               CellParagraph (Str (lit "Sac lac")) BODY ] ]
           [2 # 10; 8 # 10]
           [ Cmd "VALIGN" (0, 0)%Z (-1, -1)%Z ["TOP"];
             Cmd "LEFTPADDING" (0, 0)%Z (-1, -1)%Z ["0"];
             Cmd "RIGHTPADDING" (0, 0)%Z (-1, -1)%Z ["0"];
             Cmd "BOTTOMPADDING" (0, 0)%Z (-1, -1)%Z ["2"];
             Cmd "TOPPADDING" (0, 0)%Z (-1, -1)%Z ["2"];
             Cmd "LINEBELOW" (0, 2)%Z (-1, 2)%Z ["0.5"; "lightgrey"] ];
         Spacer 1 8 ].
Proof.
  cbv zeta.
  assert (Hblock : forall (i : nat) (v : visit),
            visit_block (i + 1) v
            = [ Paragraph
                  (Str (lit "Visit " ++ str_of_int (N.of_nat (i + 1))
                          ++ lit ": <font color='black'>" ++ str_of (v_date v)
                          ++ lit "</font>")) H_VISIT;
                Table
                  [ [ CellParagraph (Str (lit "<b>Complaints/Changes:</b>")) BODY_BOLD;
                      CellParagraph
                        (Str match v_complaints v with
                             | None_ => lit "N/A"
                             | Str [] => lit "N/A"
                             | Str (c :: s) => replace_newline (c :: s)
                             end) BODY ];
                    [ CellParagraph (Str (lit "<b>New Modalities:</b>")) BODY_BOLD;
                      CellParagraph
                        (Str match v_new_modalities v with
                             | None_ => lit "N/A"
                             | Str [] => lit "N/A"
                             | Str (c :: s) => replace_newline (c :: s)
                             end) BODY ];
                    [ CellParagraph (Str (lit "<b>Treatment (Remedy/Dose):</b>")) BODY_BOLD;
                      CellParagraph
                        (Str match v_treatment v with
                             | None_ => lit "N/A"
                             | Str [] => lit "N/A"
                             | Str (c :: s) => replace_newline (c :: s)
                             end) BODY ] ]
                  [2 # 10; 8 # 10]
                  [ Cmd "VALIGN" (0, 0)%Z (-1, -1)%Z ["TOP"];
                    Cmd "LEFTPADDING" (0, 0)%Z (-1, -1)%Z ["0"];
                    Cmd "RIGHTPADDING" (0, 0)%Z (-1, -1)%Z ["0"];
                    Cmd "BOTTOMPADDING" (0, 0)%Z (-1, -1)%Z ["2"];
                    Cmd "TOPPADDING" (0, 0)%Z (-1, -1)%Z ["2"];
                    Cmd "LINEBELOW" (0, 2)%Z (-1, 2)%Z ["0.5"; "lightgrey"] ];
                Spacer 1 8 ]).
  { intros i v. unfold visit_block, visit_table, visit_heading, label.
    rewrite !text_or_NA_cases. reflexivity. }
  assert (Hdrop : forall vs,
            drop 34 (compose_story intake_data vs)
            = mjoin (imap (fun i v => visit_block (i + 1) v) vs)).
  { intros vs. rewrite compose_story_blocks.
    destruct vs as [|v rest]; [reflexivity|].
    rewrite app_assoc. apply drop_app_length'. reflexivity. }
  assert (Hf : List.filter is_visit_heading (compose_story intake_data visits)
               = imap (fun i v => visit_heading (i + 1) (v_date v)) visits).
  { rewrite compose_story_blocks, List.filter_app.
    destruct visits as [|v rest]; [reflexivity|].
    rewrite List.filter_app.
    rewrite (filter_visit_heading_blocks (fun i => (i + 1)%nat)). reflexivity. }
  split; [|split; [|split; [|split]]].
  - rewrite compose_story_blocks. apply take_app_length'. reflexivity.
  - rewrite Hdrop. f_equal. apply imap_ext. intros i v _. apply Hblock.
  - exact Hf.
  - rewrite Hf. apply length_imap.
  - rewrite Hdrop. vm_compute. reflexivity.
Qed.

Lemma first_error_none (parse_error : value -> option str) (texts : list value) :
  first_error parse_error texts = None
  <-> forall text, In text texts -> parse_error text = None.
Proof.
  induction texts as [|t rest IH]; cbn [first_error].
  - split; [intros _ text []|reflexivity].
  - destruct (parse_error t) eqn:E.
    + split; [discriminate|]. intros H. rewrite <- E. apply H. left. reflexivity.
    + rewrite IH. split.
      * intros H text [<-|Hin]; [exact E|exact (H text Hin)].
      * intros H text Hin. apply H. right. exact Hin.
Qed.

Lemma first_error_some (parse_error : value -> option str) (texts : list value)
    (e : str) :
  first_error parse_error texts = Some e ->
  exists text, In text texts /\ parse_error text = Some e.
Proof.
  induction texts as [|t rest IH]; cbn [first_error]; [discriminate|].
  destruct (parse_error t) eqn:E.
  - intros H. injection H as <-. exists t. split; [left; reflexivity|exact E].
  - intros H. destruct (IH H) as (text & Hin & Ht). exists text.
    split; [right; exact Hin|exact Ht].
Qed.

(** The name of the patient is handed to [Paragraph] as it is, for the name
    cell of the preliminary-data table. *)
Lemma name_text_constructed (intake_data : gmap string value) (visits : list visit) :
  In (get_or_NA intake_data "name")
     (constructed_texts (compose_story intake_data visits)).
Proof.
  rewrite compose_story_blocks. unfold constructed_texts.
  rewrite List.flat_map_app. apply in_app_iff. left.
  unfold intake_story, add_bulleted_text_section. cbn [List.app List.flat_map].
  do 2 (apply in_app_iff; right). cbn [paragraph_texts List.app].
  do 1 (apply in_app_iff; right). apply in_app_iff. left.
  unfold prelim_table. cbn. auto 10.
Qed.

(** C8, on the code. [generate_patient_pdf] returns [True] exactly when the
    story is assembled and [doc.build] returns, and returns [False], after
    one call of [doc.build] and one error message that ends with the text of
    the exception, exactly when the story is assembled and [doc.build]
    raises. But the story is assembled before the [try]: when a [Paragraph]
    constructor raises, the exception leaves the function, which returns
    neither [True] nor [False], shows no message and does not call
    [doc.build]. A patient whose name the markup parser refuses is such a
    case, since the name is handed to [Paragraph] as it is. *)
Theorem generate_patient_pdf_outcome
    (parse_error : value -> option str)
    (build : str -> list flowable -> build_result)
    (intake_data : gmap string value) (visits : list visit) (filename : str) :
  let story := compose_story intake_data visits in
  let assembled := forall text, In text (constructed_texts story) ->
                                parse_error text = None in
  let result := generate_patient_pdf parse_error build intake_data visits filename in
  (snd result = Returned true <-> assembled /\ build filename story = BuildOk)
  /\ (snd result = Returned true -> fst result = [EvBuild filename story])
  /\ (snd result = Returned false
      <-> assembled /\ exists e, build filename story = BuildRaised e)
  /\ (forall e, assembled -> build filename story = BuildRaised e ->
        result = ([ EvBuild filename story;
                    EvShowError (lit "PDF Build Error")
                      (lit "Failed to build PDF content. Error: " ++ e) ],
                  Returned false))
  /\ ((exists text, In text (constructed_texts story)
                    /\ parse_error text <> None)
      <-> exists e, result = ([], Raised e))
  /\ (parse_error (get_or_NA intake_data "name") <> None ->
      exists e, result = ([], Raised e))
  /\ (length (List.filter is_build (fst result)) <= 1)%nat
  /\ (length (List.filter is_show_error (fst result))
      = match snd result with
        | Returned false => 1
        | Returned true | Raised _ => 0
        end%nat).
Proof.
  cbv zeta. unfold generate_patient_pdf.
  set (story := compose_story intake_data visits).
  pose proof (first_error_none parse_error (constructed_texts story)) as Hnone.
  pose proof (first_error_some parse_error (constructed_texts story)) as Hsome.
  assert (Hname : In (get_or_NA intake_data "name") (constructed_texts story))
    by apply name_text_constructed.
  destruct (first_error parse_error (constructed_texts story)) as [e0|] eqn:F.
  - (* a paragraph constructor raises *)
    destruct (Hsome e0 eq_refl) as (text & Hin & Ht).
    assert (Hnot : ~ (forall t, In t (constructed_texts story) -> parse_error t = None)).
    { intros H. rewrite (H text Hin) in Ht. discriminate Ht. }
    cbn [fst snd List.filter length].
    split; [|split; [|split; [|split; [|split; [|split; [|split]]]]]].
    + split; [discriminate|]. intros [H _]. destruct (Hnot H).
    + discriminate.
    + split; [discriminate|]. intros [H _]. destruct (Hnot H).
    + intros e H. destruct (Hnot H).
    + split; [intros _; exists e0; reflexivity|].
      intros _. exists text. split; [exact Hin|]. rewrite Ht. discriminate.
    + intros _. exists e0. reflexivity.
    + lia.
    + reflexivity.
  - (* the story is assembled *)
    assert (Hall : forall t, In t (constructed_texts story) -> parse_error t = None)
      by (apply Hnone; reflexivity).
    destruct (build filename story) as [|e] eqn:B;
      cbn [fst snd List.filter is_build is_show_error length];
      (split; [|split; [|split; [|split; [|split; [|split; [|split]]]]]]).
    + split; [|reflexivity]. intros _. split; [exact Hall|reflexivity].
    + reflexivity.
    + split; [discriminate|]. intros [_ [e He]]. discriminate He.
    + intros e _ He. discriminate He.
    + split; [|intros [e He]; discriminate He].
      intros (text & Hin & Ht). destruct (Ht (Hall text Hin)).
    + intros Hn. destruct (Hn (Hall _ Hname)).
    + lia.
    + reflexivity.
    + split; [discriminate|]. intros [_ He]. discriminate He.
    + discriminate.
    + split; [|reflexivity]. intros _. split; [exact Hall|]. exists e. reflexivity.
    + intros e' _ He'. injection He' as ->. reflexivity.
    + split; [|intros [e' He']; discriminate He'].
      intros (text & Hin & Ht). destruct (Ht (Hall text Hin)).
    + intros Hn. destruct (Hn (Hall _ Hname)).
    + lia.
    + reflexivity.
Qed.

(** The call on a patient named "R<L", with a parser that refuses that text:
    the exception leaves [generate_patient_pdf] before [doc.build] is
    called. *)
Lemma generate_patient_pdf_outcome_witness :
  sample_parse_error (get_or_NA intake_unparsable_name "name") <> None
  /\ exists e,
       generate_patient_pdf sample_parse_error (fun _ _ => BuildOk)
         intake_unparsable_name [] (lit "report.pdf")
       = ([], Raised e).
Proof.
  assert (H : sample_parse_error (get_or_NA intake_unparsable_name "name") <> None)
    by (vm_compute; discriminate).
  split; [exact H|].
  destruct (generate_patient_pdf_outcome sample_parse_error (fun _ _ => BuildOk)
              intake_unparsable_name [] (lit "report.pdf"))
    as (_ & _ & _ & _ & _ & Hraise & _).
  exact (Hraise H).
Defined.

(* ===================================================================== *)
(** ** Facts about the store *)
(* ===================================================================== *)

Import Store.

(** The value [get_patient_data] stores for the case number is [encode] of
    the text in the case-number entry. *)
Lemma get_patient_data_case_no (entries : gmap string widget) (raw : str) :
  entries !! "entry_case_no" = Some (EntryWidget raw) ->
  get_patient_data entries !! 1%nat = Some (encode raw).
Proof.
  intros H. unfold get_patient_data, intake_keys. cbn [List.map].
  change ((?x :: ?y :: ?l) !! 1%nat) with (Some y).
  rewrite bool_decide_eq_true_2 by reflexivity.
  unfold widget_content. rewrite H. reflexivity.
Qed.

Section Lifecycle.

Implicit Types (a : PatientManagerApp) (c : command) (v : visit_row).

Lemma edit_record_store patient a : store (edit_record patient a) = store a.
Proof. unfold edit_record. destruct (existsb _ _); reflexivity. Qed.

(** What a command does to the [visits] table: nothing, one row appended
    with a fresh key, or the rows of one patient removed. *)
Lemma run_visits a c :
  let d := store a in
  let d' := store (run a c) in
  (visits d' = visits d /\ next_visit_id d' = next_visit_id d)
  \/ (exists row, visits d' = visits d ++ [row]
                  /\ visit_id row = next_visit_id d
                  /\ next_visit_id d' = (next_visit_id d + 1)%Z)
  \/ (exists p, c = DeletePatientRecord (Some p) true
                /\ visits d' = List.filter (fun v => negb (patient_id v =? p)%Z) (visits d)
                /\ patients d' = List.filter (fun r => negb (row_id r =? p)%Z) (patients d)
                /\ next_visit_id d' = next_visit_id d).
Proof.
  cbv zeta. destruct c as [e|e|f|sel confirm|p| |]; cbn [run].
  - left. unfold save_patient. destruct (validate_required_fields e); [|auto].
    rewrite edit_record_store. auto.
  - left. unfold update_patient_intake.
    destruct (validate_required_fields e); [|auto].
    destruct (current_patient_id a); auto.
  - unfold save_followup. destruct (current_patient_id a) as [cur|]; [|auto].
    unfold get_followup_data.
    destruct (bool_decide _ || bool_decide _); [auto|].
    right. left. eexists. cbn. split; [reflexivity|]. split; reflexivity.
  - unfold delete_patient_record. destruct sel as [p|]; [|auto].
    destruct confirm; [|auto].
    right. right. exists p. cbn. auto.
  - left. rewrite edit_record_store. auto.
  - left. auto.
  - left. auto.
Qed.

Lemma NoDup_map_filter {A B} (f : A -> B) (p : A -> bool) (l : list A) :
  NoDup (List.map f l) -> NoDup (List.map f (List.filter p l)).
Proof.
  induction l as [|x l IH]; cbn; [auto|]. intros H.
  apply NoDup_cons in H as [Hx Hl].
  destruct (p x); cbn; [|auto]. apply NoDup_cons. split; [|auto].
  intros Hin. apply Hx. apply list_elem_of_In in Hin. apply list_elem_of_In.
  apply in_map_iff in Hin as (y & Hy & Hin). apply in_map_iff.
  exists y. split; [exact Hy|]. apply List.filter_In in Hin. tauto.
Qed.

Lemma run_visits_wf a c :
  visits_wf (store a) -> visits_wf (store (run a c)).
Proof.
  intros [Hnd Hlt]. unfold visits_wf.
  destruct (run_visits a c) as [[-> ->]|[(row & -> & Hid & ->)|(p & _ & -> & _ & ->)]].
  - auto.
  - split.
    + rewrite List.map_app. cbn [List.map]. apply NoDup_app. split; [exact Hnd|].
      split; [|apply NoDup_singleton].
      intros x Hx Hx'. apply list_elem_of_In in Hx, Hx'.
      cbn in Hx'. destruct Hx' as [<-|[]].
      apply in_map_iff in Hx as (y & Hy & Hin).
      rewrite Forall_forall in Hlt. apply list_elem_of_In, Hlt in Hin. lia.
    + apply Forall_app. split.
      * eapply Forall_impl; [exact Hlt|]. cbn. intros; lia.
      * apply Forall_cons. split; [lia|apply Forall_nil; exact I].
  - split; [apply NoDup_map_filter, Hnd|].
    rewrite Forall_forall in *. intros x Hx. apply Hlt.
    apply list_elem_of_In in Hx. apply list_elem_of_In.
    apply List.filter_In in Hx. tauto.
Qed.

Lemma run_all_visits_wf cs a :
  visits_wf (store a) -> visits_wf (store (run_all a cs)).
Proof.
  revert a. induction cs as [|c cs IH]; intros a H; [exact H|].
  cbn [run_all fold_left]. apply IH, run_visits_wf, H.
Qed.

Lemma initial_visits_wf : visits_wf (store initial).
Proof. split; [apply NoDup_nil_2|apply Forall_nil; exact I]. Qed.

End Lifecycle.

Lemma run_visit_kept (a : PatientManagerApp) (c : command) (v : visit_row) :
  In v (visits (store a)) ->
  In v (visits (store (run a c)))
  \/ exists p, c = DeletePatientRecord (Some p) true /\ patient_id v = p
               /\ forall r, In r (patients (store (run a c))) -> row_id r <> p.
Proof.
  intros Hin.
  destruct (run_visits a c) as [[E _]|[(row & E & _)|(p & Hc & Ev & Ep & _)]].
  - left. rewrite E. exact Hin.
  - left. rewrite E. apply in_app_iff. left. exact Hin.
  - destruct (Z.eqb_spec (patient_id v) p) as [Hp|Hp].
    + right. exists p. split; [exact Hc|]. split; [exact Hp|].
      intros r Hr. rewrite Ep in Hr. apply List.filter_In in Hr as [_ Hr].
      apply negb_true_iff, Z.eqb_neq in Hr. exact Hr.
    + left. rewrite Ev. apply List.filter_In. split; [exact Hin|].
      apply negb_true_iff, Z.eqb_neq. exact Hp.
Qed.

Lemma run_visit_same_key (a : PatientManagerApp) (c : command) (v v' : visit_row) :
  visits_wf (store a) ->
  In v (visits (store a)) -> In v' (visits (store (run a c))) ->
  visit_id v' = visit_id v -> v' = v.
Proof.
  intros [Hnd Hlt] Hv Hv' Hid.
  assert (Hold : In v' (visits (store a)) -> v' = v).
  { intros Hin. clear - Hnd Hv Hin Hid.
    induction (visits (store a)) as [|x l IH]; [destruct Hv|].
    cbn [List.map] in Hnd. apply NoDup_cons in Hnd as [Hx Hl].
    destruct Hv as [->|Hv], Hin as [->|Hin]; [reflexivity| | |auto].
    - exfalso. apply Hx. apply list_elem_of_In, in_map_iff. exists v'. auto.
    - exfalso. apply Hx. apply list_elem_of_In, in_map_iff. exists v. auto. }
  destruct (run_visits a c) as [[E _]|[(row & E & Hrow & _)|(p & _ & E & _)]];
    rewrite E in Hv'.
  - auto.
  - apply in_app_iff in Hv' as [Hin|[<-|[]]]; [auto|].
    rewrite Forall_forall in Hlt. apply list_elem_of_In, Hlt in Hv. lia.
  - apply List.filter_In in Hv' as [Hin _]. auto.
Qed.

Lemma delete_removes_visits (a : PatientManagerApp) (p : Z) (v : visit_row) :
  In v (visits (store (delete_patient_record (Some p) true a))) ->
  patient_id v <> p.
Proof.
  cbn. intros H. apply List.filter_In in H as [_ H].
  apply negb_true_iff, Z.eqb_neq in H. exact H.
Qed.

(** A visit row stays, as it is, through any sequence of commands that
    does not delete its patient. *)
Lemma run_all_visit_kept (cs : list command) (a : PatientManagerApp) (v : visit_row) :
  In v (visits (store a)) ->
  (forall p, In (DeletePatientRecord (Some p) true) cs -> patient_id v <> p) ->
  In v (visits (store (run_all a cs))).
Proof.
  revert a. induction cs as [|c cs IH]; intros a Hin Hcs; [exact Hin|].
  cbn [run_all fold_left]. apply IH.
  - destruct (run_visit_kept a c v Hin) as [H|(p & -> & Hp & _)]; [exact H|].
    exfalso. apply (Hcs p); [left; reflexivity|exact Hp].
  - intros p Hp. apply Hcs. right. exact Hp.
Qed.

(* ===================================================================== *)
(** ** The claims about the store *)
(* ===================================================================== *)

(** C9. In any state the program reaches, and for any command: a visit row
    of the state is still there afterwards, unchanged, unless the command
    deletes the patient it belongs to, and then the patient's row is gone
    too; no row of the new state has the key of an old row and other
    contents; and after deleting patient [p] no visit row of [p] is left. *)
Theorem visit_lifecycle (cs : list command) (c : command) :
  let a := run_all initial cs in
  let a' := run a c in
  (forall v, In v (visits (store a)) ->
     In v (visits (store a'))
     \/ exists p, c = DeletePatientRecord (Some p) true /\ patient_id v = p
                  /\ forall r, In r (patients (store a')) -> row_id r <> p)
  /\ (forall v v', In v (visits (store a)) -> In v' (visits (store a')) ->
        visit_id v' = visit_id v -> v' = v)
  /\ (forall p, c = DeletePatientRecord (Some p) true ->
        forall v, In v (visits (store a')) -> patient_id v <> p)
  /\ (forall cs' v, In v (visits (store a)) ->
        (forall p, In (DeletePatientRecord (Some p) true) cs' -> patient_id v <> p) ->
        In v (visits (store (run_all a cs')))).
Proof.
  cbv zeta. split; [|split; [|split]].
  - intros v. apply run_visit_kept.
  - intros v v'. apply run_visit_same_key, run_all_visits_wf, initial_visits_wf.
  - intros p -> v. apply delete_removes_visits.
  - intros cs' v. apply run_all_visit_kept.
Qed.

Section DateOrder.

Lemma str_leb_refl (s : str) : str_leb s s = true.
Proof.
  induction s as [|c s IH]; [reflexivity|]. cbn [str_leb].
  rewrite N.ltb_irrefl, N.eqb_refl. exact IH.
Qed.

Lemma str_leb_total (a b : str) : str_leb a b = true \/ str_leb b a = true.
Proof.
  revert b. induction a as [|x a IH]; intros [|y b]; cbn [str_leb]; auto.
  destruct (N.ltb_spec x y), (N.ltb_spec y x), (N.eqb_spec x y), (N.eqb_spec y x);
    auto; try lia; try congruence.
Qed.

Lemma str_leb_trans (a b c : str) :
  str_leb a b = true -> str_leb b c = true -> str_leb a c = true.
Proof.
  revert b c. induction a as [|x a IH]; intros [|y b] [|z c]; cbn [str_leb];
    try reflexivity; try discriminate.
  destruct (N.ltb_spec x y) as [L1|L1], (N.ltb_spec y z) as [L2|L2],
    (N.ltb_spec x z) as [L3|L3], (N.eqb_spec x y) as [E1|E1],
    (N.eqb_spec y z) as [E2|E2], (N.eqb_spec x z) as [E3|E3];
    try reflexivity; try discriminate; try lia; try (intros; discriminate).
  apply IH.
Qed.

#[local] Instance date_text_le_total : Total date_text_le.
Proof. intros v w. apply str_leb_total. Qed.

#[local] Instance date_text_le_trans : Transitive date_text_le.
Proof. intros u v w. apply str_leb_trans. Qed.

(** With equal-length heads and one tail, the heads decide the order. *)
Lemma str_leb_common_tail (a b r : str) :
  length a = length b ->
  str_leb (a ++ r) (b ++ r) = str_leb a b.
Proof.
  revert b. induction a as [|x a IH]; intros [|y b] Hlen; try discriminate.
  - cbn. apply str_leb_refl.
  - cbn [app str_leb]. rewrite IH by (cbn in Hlen; lia). reflexivity.
Qed.

Lemma chars_of_uint_all_digits u : all_digits (chars_of_uint u) = true.
Proof. induction u; cbn; auto. Qed.

Lemma str_of_int_all_digits n : all_digits (str_of_int n) = true.
Proof. apply chars_of_uint_all_digits. Qed.

Lemma int_of_digits_str_of_int n : int_of_digits (str_of_int n) = n.
Proof.
  unfold str_of_int. rewrite <- of_uint_horner. apply DecimalN.Unsigned.of_to.
Qed.

Lemma str_of_int_length_below_100 n :
  (n < 100)%N -> (0 < length (str_of_int n) <= 2)%nat.
Proof.
  intros H.
  assert (Hall : forallb (fun k => let l := length (str_of_int (N.of_nat k)) in
                            (0 <? l)%nat && (l <=? 2)%nat) (seq 0 100) = true)
    by (vm_compute; reflexivity).
  rewrite forallb_forall in Hall.
  specialize (Hall (N.to_nat n)). rewrite N2Nat.id in Hall.
  cbv zeta in Hall. rewrite andb_true_iff, Nat.ltb_lt, Nat.leb_le in Hall.
  apply Hall, in_seq. lia.
Qed.

(** A number below 100 on two digits, as [%d] and [%m] print it. *)
Lemma two_digits n :
  (n < 100)%N ->
  length (zfill 2 (str_of_int n)) = 2%nat
  /\ all_digits (zfill 2 (str_of_int n)) = true
  /\ int_of_digits (zfill 2 (str_of_int n)) = n.
Proof.
  intros H. pose proof (str_of_int_length_below_100 n H) as L.
  pose proof (str_of_int_all_digits n) as D.
  split; [|split].
  - rewrite zfill_length by exact D. lia.
  - apply zfill_all_digits, D.
  - rewrite zfill_digits, int_of_digits_repeat_zero by exact D.
    apply int_of_digits_str_of_int.
Qed.

Lemma date_of_text_strftime (t : date) :
  (day t < 100)%N -> (month t < 100)%N ->
  date_of_text (strftime_dmy t) = t.
Proof.
  intros Hd Hm. destruct t as [dd mm yy]. cbn [day month year] in *.
  destruct (two_digits dd Hd) as (Ld & _ & Vd).
  destruct (two_digits mm Hm) as (Lm & _ & Vm).
  unfold date_of_text, strftime_dmy. cbn [day month year].
  set (D := zfill 2 (str_of_int dd)) in *.
  set (M := zfill 2 (str_of_int mm)) in *.
  set (Y := zfill 4 (str_of_int yy)).
  assert (E1 : take 2 (D ++ lit "-" ++ M ++ lit "-" ++ Y) = D)
    by (apply take_app_length'; lia).
  assert (E2 : drop 3 (D ++ lit "-" ++ M ++ lit "-" ++ Y) = M ++ lit "-" ++ Y).
  { change (D ++ lit "-" ++ M ++ lit "-" ++ Y)
      with (D ++ [45%N] ++ (M ++ lit "-" ++ Y)).
    rewrite app_assoc. apply drop_app_length'. rewrite length_app, Ld. reflexivity. }
  assert (E3 : drop 6 (D ++ lit "-" ++ M ++ lit "-" ++ Y) = Y).
  { change (D ++ lit "-" ++ M ++ lit "-" ++ Y)
      with (D ++ [45%N] ++ M ++ [45%N] ++ Y).
    rewrite !app_assoc. apply drop_app_length'.
    rewrite !length_app, Ld, Lm. reflexivity. }
  rewrite E1, E2, E3.
  assert (E4 : take 2 (M ++ lit "-" ++ Y) = M)
    by (apply take_app_length'; lia).
  rewrite E4, Vd, Vm. f_equal.
  unfold Y. rewrite zfill_digits, int_of_digits_repeat_zero
    by apply str_of_int_all_digits.
  apply int_of_digits_str_of_int.
Qed.

(** For dates of one month and year the order of the texts is the calendar
    order. *)
Lemma strftime_order_same_month (s t : date) :
  (day s < 100)%N -> (day t < 100)%N ->
  month s = month t -> year s = year t ->
  str_leb (strftime_dmy s) (strftime_dmy t) = true <-> date_le s t.
Proof.
  intros Hs Ht Em Ey. unfold strftime_dmy, date_le. rewrite Em, Ey.
  destruct (two_digits (day s) Hs) as (Ls & Ds & Vs).
  destruct (two_digits (day t) Ht) as (Lt & Dt & Vt).
  rewrite str_leb_common_tail by congruence.
  rewrite str_leb_int_of_digits by congruence.
  rewrite Vs, Vt. lia.
Qed.

End DateOrder.

Example session_visits :
  snd <$> get_full_patient_data (store (run_all initial session)) 1
  = Some [ Report.Visit (Str (lit "01-02-2024")) (Str (lit "better")) (Str [])
             (Str (lit "Sac lac"));
           Report.Visit (Str (lit "15-01-2024")) (Str (lit "cough")) (Str [])
             (Str (lit "Bryonia 30")) ].
Proof. vm_compute. reflexivity. Qed.

(** The patient of the session was saved with a blank weight: the report
    built from what [get_full_patient_data] returns has an empty paragraph
    in the weight cell, and "N/A" under the diagnosis heading. *)
Example session_report_blank_weight :
  (fun r => Report.compose_story r.1 r.2 !! 21%nat)
    <$> get_full_patient_data (store (run_all initial session)) 1
  = Some (Some (Report.Table
            [ [ Report.label "<b>Wt:</b>"; Report.CellParagraph (Str []) Report.BODY;
                Report.label "<b>B.P.:</b>"; Report.CellParagraph (Str []) Report.BODY ];
              [ Report.label "<b>Pulse:</b>"; Report.CellParagraph (Str []) Report.BODY;
                Report.label "<b>Temp:</b>"; Report.CellParagraph (Str []) Report.BODY ] ]
            Report.four_columns Report.grid_style))
  /\ (fun r => Report.compose_story r.1 r.2 !! 28%nat)
       <$> get_full_patient_data (store (run_all initial session)) 1
     = Some (Some (Report.Paragraph Report.NA Report.TEXT_BLOCK)).
Proof. split; vm_compute; reflexivity. Qed.

Example session_delete :
  visits (store (run_all initial (session ++ [DeletePatientRecord (Some 1%Z) true])))
  = [].
Proof. vm_compute. reflexivity. Qed.

Lemma StronglySorted_weaken {A} (R R' : A -> A -> Prop) (l : list A) :
  (forall x y, In x l -> In y l -> R x y -> R' x y) ->
  StronglySorted R l -> StronglySorted R' l.
Proof.
  intros H HS. induction HS as [|x l HS IH Hx]; constructor.
  - apply IH. intros u w Hu Hw. apply H; right; assumption.
  - rewrite Forall_forall in *. intros y Hy. pose proof Hy as Hy'.
    apply list_elem_of_In in Hy'.
    apply H; [left; reflexivity|right; exact Hy'|apply Hx, Hy].
Qed.

(** C10. The visit sequence [get_full_patient_data] returns is the
    patient's visit rows in ascending order of the date text. It is in
    calendar order when the two orders agree on these visits, as they do for
    dd-mm-yyyy dates of one month and year; in general it is not: in the
    session above the visit of 1 February comes before that of
    15 January. *)
Theorem visits_in_date_text_order
    (d : db) (patient : Z)
    (intake_data : gmap string value) (visit_records : list Report.visit) :
  get_full_patient_data d patient = Some (intake_data, visit_records) ->
  StronglySorted lexicographic visit_records
  /\ visit_records
     ≡ₚ visit_tuple <$> List.filter (fun v => (patient_id v =? patient)%Z) (visits d)
  /\ ((forall v w, In v visit_records -> In w visit_records ->
                   lexicographic v w -> chronological v w) ->
      StronglySorted chronological visit_records)
  /\ (forall m y, (m < 100)%N ->
        (forall v, In v visit_records ->
           exists t, (day t < 100)%N /\ month t = m /\ year t = y
                     /\ Report.v_date v = Str (strftime_dmy t)) ->
        StronglySorted chronological visit_records)
  /\ (exists visits',
        snd <$> get_full_patient_data (store (run_all initial session)) 1
        = Some visits'
        /\ StronglySorted lexicographic visits'
        /\ ~ StronglySorted chronological visits').
Proof.
  intros H. unfold get_full_patient_data in H.
  destruct (List.find _ (patients d)) as [record|]; [|discriminate H].
  injection H as _ <-.
  assert (HS : StronglySorted lexicographic (visit_tuple <$> select_visits d patient)).
  { apply (StronglySorted_fmap visit_tuple date_text_le lexicographic).
    - intros x y Hxy. exact Hxy.
    - apply @StronglySorted_merge_sort;
        first [exact date_text_le_trans | exact date_text_le_total]. }
  split; [exact HS|]. split; [|split; [|split]].
  - unfold select_visits. apply fmap_Permutation, merge_sort_Permutation.
  - intros Hagree. exact (StronglySorted_weaken _ _ _ Hagree HS).
  - intros m y Hm Hdates. apply (StronglySorted_weaken lexicographic); [|exact HS].
    intros v w Hv Hw.
    destruct (Hdates v Hv) as (s & Hs & Ms & Ys & Es).
    destruct (Hdates w Hw) as (t & Ht & Mt & Yt & Et).
    unfold lexicographic, chronological. rewrite Es, Et. cbn [str_of].
    rewrite !date_of_text_strftime by lia.
    apply strftime_order_same_month; congruence.
  - eexists. split; [exact session_visits|]. split.
    + repeat constructor.
    + intros Hc. inversion Hc as [|? ? _ Hf]. inversion Hf as [|? ? Hle _].
      vm_compute in Hle. apply Hle. reflexivity.
Qed.

Lemma visits_in_date_text_order_witness :
  exists intake_data visit_records,
    get_full_patient_data (store (run_all initial session)) 1
    = Some (intake_data, visit_records)
    /\ StronglySorted lexicographic visit_records.
Proof.
  destruct (get_full_patient_data (store (run_all initial session)) 1)
    as [[intake_data visit_records]|] eqn:E; [|vm_compute in E; discriminate E].
  exists intake_data, visit_records. split; [reflexivity|].
  exact (proj1 (visits_in_date_text_order _ _ _ _ E)).
Defined.

(* ===================================================================== *)
(** ** More about the codec *)
(* ===================================================================== *)

Section StripFacts.

Variable p : N -> bool.

Lemma lstrip_by_head (s : str) (c : N) (t : str) :
  lstrip_by p s = c :: t -> p c = false.
Proof.
  induction s as [|d s IH]; [discriminate|]. cbn [lstrip_by].
  destruct (p d) eqn:E; [exact IH|]. intros H. injection H as -> _. exact E.
Qed.

Lemma lstrip_by_fixed (c : N) (t : str) :
  p c = false -> lstrip_by p (c :: t) = c :: t.
Proof. intros H. cbn [lstrip_by]. rewrite H. reflexivity. Qed.

Lemma lstrip_by_idem (s : str) : lstrip_by p (lstrip_by p s) = lstrip_by p s.
Proof.
  destruct (lstrip_by p s) as [|c t] eqn:E; [reflexivity|].
  apply lstrip_by_fixed, (lstrip_by_head s c t E).
Qed.

Lemma lstrip_by_snoc (s : str) (c : N) :
  p c = false -> lstrip_by p (s ++ [c]) = lstrip_by p s ++ [c].
Proof.
  intros H. induction s as [|d s IH]; cbn [lstrip_by List.app].
  - rewrite H. reflexivity.
  - destruct (p d); [exact IH|reflexivity].
Qed.

Lemma rstrip_by_cons (c : N) (t : str) :
  p c = false -> rstrip_by p (c :: t) = c :: rstrip_by p t.
Proof.
  intros H. unfold rstrip_by. cbn [rev].
  rewrite (lstrip_by_snoc _ c H), rev_app_distr. reflexivity.
Qed.

Lemma rstrip_by_idem (s : str) : rstrip_by p (rstrip_by p s) = rstrip_by p s.
Proof. unfold rstrip_by. rewrite rev_involutive, lstrip_by_idem. reflexivity. Qed.

(** Stripping both ends is idempotent. *)
Lemma strip_by_idem (s : str) :
  rstrip_by p (lstrip_by p (rstrip_by p (lstrip_by p s)))
  = rstrip_by p (lstrip_by p s).
Proof.
  destruct (lstrip_by p s) as [|c t] eqn:E; [reflexivity|].
  pose proof (lstrip_by_head s c t E) as Hc.
  rewrite (rstrip_by_cons c t Hc), (lstrip_by_fixed c _ Hc).
  rewrite <- (rstrip_by_cons c t Hc). apply rstrip_by_idem.
Qed.

End StripFacts.

Lemma strip_idem (s : str) : strip (strip s) = strip s.
Proof. apply strip_by_idem. Qed.

Lemma has_digit_strip (s : str) : has_digit (strip s) = has_digit s.
Proof.
  destruct (has_digit s) eqn:E.
  - apply has_digit_numeric_part. rewrite numeric_part_strip.
    apply has_digit_numeric_part, E.
  - destruct (has_digit (strip s)) eqn:E'; [|reflexivity].
    apply has_digit_numeric_part in E'. rewrite numeric_part_strip in E'.
    apply has_digit_numeric_part in E'. congruence.
Qed.

Lemma encode_all_digits (s : str) :
  has_digit s = true ->
  all_digits (encode s) = true
  /\ (CASE_NO_PADDING_SIZE <= length (encode s))%nat
  /\ encode s <> [].
Proof.
  intros H. rewrite (encode_digit_bearing s H).
  pose proof (numeric_part_all_digits s) as D.
  assert (L : (CASE_NO_PADDING_SIZE <= length (zfill CASE_NO_PADDING_SIZE (numeric_part s)))%nat)
    by (rewrite zfill_length by exact D; lia).
  split; [apply zfill_all_digits, D|]. split; [exact L|].
  intros E. rewrite E in L. unfold CASE_NO_PADDING_SIZE in L. cbn in L. lia.
Qed.

Lemma zfill_long (w : nat) (ds : str) : (w <= length ds)%nat -> zfill w ds = ds.
Proof.
  intros H. unfold zfill. destruct (Nat.leb_spec w (length ds)); [reflexivity|lia].
Qed.

(** X1. Encoding is idempotent on every input: a stored form is stored as it
    is. *)
Theorem encode_idempotent (s : str) : encode (encode s) = encode s.
Proof.
  destruct (has_digit s) eqn:H.
  - destruct (encode_all_digits s H) as (D & L & Hne).
    rewrite (encode_digits _ D Hne). apply zfill_long, L.
  - rewrite (encode_no_digit s H).
    rewrite encode_no_digit by (rewrite has_digit_strip; exact H).
    apply strip_idem.
Qed.

Lemma match_padded_head (s : str) :
  match_padded s = true -> exists t, s = 48%N :: t.
Proof.
  destruct s as [|c t]; [discriminate|]. cbn [match_padded]. intros H.
  apply andb_true_iff in H as [H _]. apply N.eqb_eq in H. subst c. eauto.
Qed.

Lemma decode_unchanged (x : str) : match_padded x = false -> decode x = x.
Proof. intros H. unfold decode, _unpad_case_no. rewrite H. reflexivity. Qed.

Lemma not_padded_without_zero (x : str) :
  (forall t, x <> 48%N :: t) -> match_padded x = false.
Proof.
  intros H. destruct (match_padded x) eqn:E; [|reflexivity].
  destruct (match_padded_head x E) as [t ->]. exfalso. exact (H t eq_refl).
Qed.

(** X2. Decoding is idempotent on every string: a displayed case number is
    displayed as it is. *)
Theorem decode_idempotent (x : str) : decode (decode x) = decode x.
Proof.
  destruct (match_padded x) eqn:M.
  - apply decode_unchanged. unfold decode, _unpad_case_no. rewrite M.
    destruct (lstrip_zero x) as [|c t] eqn:E; [reflexivity|].
    apply not_padded_without_zero. intros t' Heq. injection Heq as -> _.
    apply lstrip_by_head in E. discriminate E.
  - rewrite (decode_unchanged x M). apply decode_unchanged, M.
Qed.

(** X3. The codec never changes the number: the digits of the stored form,
    and of the displayed form of the stored form, denote the number that the
    digits of the input denote. *)
Theorem codec_preserves_value (s : str) :
  digits_value (encode s) = digits_value s
  /\ digits_value (decode (encode s)) = digits_value s.
Proof.
  unfold digits_value. destruct (has_digit s) eqn:H.
  - destruct (encode_all_digits s H) as (D & L & Hne).
    pose proof (numeric_part_all_digits s) as Ds.
    assert (E : int_of_digits (encode s) = int_of_digits (numeric_part s)).
    { rewrite (encode_digit_bearing s H), zfill_digits by exact Ds.
      apply int_of_digits_repeat_zero. }
    split.
    + rewrite numeric_part_digits by exact D. exact E.
    + rewrite (decode_digits _ D Hne).
      rewrite numeric_part_digits by (apply canonical_all_digits, D).
      rewrite <- (str_of_int_of_digits _ D), int_of_digits_str_of_int. exact E.
  - rewrite (encode_no_digit s H).
    rewrite decode_no_digit by (rewrite has_digit_strip; exact H).
    rewrite numeric_part_strip. split; reflexivity.
Qed.

(** X4. What [decode] leaves alone: a value that does not begin with a zero
    is returned as it is, and the result is empty only for the empty
    string. *)
Theorem decode_pass_through (x : str) :
  ((forall t, x <> 48%N :: t) -> decode x = x)
  /\ (decode x = [] <-> x = []).
Proof.
  split.
  - intros H. apply decode_unchanged, not_padded_without_zero, H.
  - split; [|intros ->; reflexivity].
    unfold decode, _unpad_case_no. destruct (match_padded x) eqn:M; [|auto].
    destruct (lstrip_zero x); discriminate.
Qed.

Lemma str_leb_antisym (a b : str) :
  str_leb a b = true -> str_leb b a = true -> a = b.
Proof.
  revert b. induction a as [|x a IH]; intros [|y b]; cbn [str_leb];
    try reflexivity; try discriminate.
  destruct (N.ltb_spec x y) as [L1|L1], (N.ltb_spec y x) as [L2|L2],
    (N.eqb_spec x y) as [E1|E1], (N.eqb_spec y x) as [E2|E2];
    try discriminate; try lia; try (intros; discriminate).
  intros H1 H2. subst y. f_equal. apply IH; assumption.
Qed.

(** X5. Within the padding width the stored form identifies the number: two
    inputs with at most five digits each have the same stored form exactly
    when their digits denote the same number. *)
Theorem encode_injective_within_width (a b : str) :
  has_digit a = true -> has_digit b = true ->
  (length (numeric_part a) <= CASE_NO_PADDING_SIZE)%nat ->
  (length (numeric_part b) <= CASE_NO_PADDING_SIZE)%nat ->
  encode a = encode b <-> digits_value a = digits_value b.
Proof.
  intros Ha Hb La Lb.
  pose proof (numeric_part_all_digits a) as Da.
  pose proof (numeric_part_all_digits b) as Db.
  assert (Va : int_of_digits (encode a) = digits_value a).
  { rewrite (encode_digit_bearing a Ha), zfill_digits by exact Da.
    apply int_of_digits_repeat_zero. }
  assert (Vb : int_of_digits (encode b) = digits_value b).
  { rewrite (encode_digit_bearing b Hb), zfill_digits by exact Db.
    apply int_of_digits_repeat_zero. }
  split; [intros E; rewrite <- Va, <- Vb, E; reflexivity|].
  intros E. rewrite <- Va, <- Vb in E.
  destruct (encode_all_digits a Ha) as (Ea & _ & _).
  destruct (encode_all_digits b Hb) as (Eb & _ & _).
  assert (Hlen : length (encode a) = length (encode b)).
  { rewrite (encode_digit_bearing a Ha), (encode_digit_bearing b Hb).
    rewrite !zfill_length by assumption. lia. }
  apply str_leb_antisym; apply str_leb_int_of_digits; auto; lia.
Qed.

Lemma encode_injective_within_width_witness :
  has_digit (lit "T12") = true /\ has_digit (lit "0012") = true
  /\ (length (numeric_part (lit "T12")) <= CASE_NO_PADDING_SIZE)%nat
  /\ (length (numeric_part (lit "0012")) <= CASE_NO_PADDING_SIZE)%nat
  /\ (encode (lit "T12") = encode (lit "0012")
      <-> digits_value (lit "T12") = digits_value (lit "0012")).
Proof.
  split; [reflexivity|]. split; [reflexivity|].
  split; [vm_compute; lia|]. split; [vm_compute; lia|].
  apply (encode_injective_within_width (lit "T12") (lit "0012"));
    [reflexivity|reflexivity|vm_compute; lia|vm_compute; lia].
Defined.

(* ===================================================================== *)
(** ** More about reading the intake form *)
(* ===================================================================== *)

Lemma widget_content_stripped (entries : gmap string widget) (key : string) :
  strip (widget_content entries key) = widget_content entries key.
Proof.
  unfold widget_content. destruct (entries !! key) as [[c|c]|];
    [apply strip_idem|apply strip_idem|reflexivity].
Qed.

Lemma pad_case_no_stripped (content : str) :
  strip content = content -> strip (pad_case_no content) = pad_case_no content.
Proof.
  intros H. unfold pad_case_no. destruct content as [|c r]; [reflexivity|].
  destruct (numeric_part (c :: r)) as [|d ds] eqn:E; [exact H|].
  apply strip_digits, zfill_all_digits. rewrite <- E.
  apply numeric_part_all_digits.
Qed.


(* ===================================================================== *)
(** ** More about the report composer *)
(* ===================================================================== *)

Lemma replace_newline_app (a b : str) :
  replace_newline (a ++ b) = replace_newline a ++ replace_newline b.
Proof.
  induction a as [|c a IH]; [reflexivity|]. cbn [List.app replace_newline].
  rewrite IH. destruct (c =? 10)%N; [|reflexivity].
  rewrite <- app_assoc. reflexivity.
Qed.

Lemma replace_newline_free (s : str) : ~ In 10%N (replace_newline s).
Proof.
  induction s as [|c s IH]; [intros []|]. cbn [replace_newline].
  destruct (N.eqb_spec c 10) as [->|Hc].
  - intros H. apply in_app_iff in H as [H|H]; [|exact (IH H)].
    cbn in H. repeat (destruct H as [H|H]; [discriminate H|]). exact H.
  - intros [H|H]; [congruence|exact (IH H)].
Qed.

(** X7. Line breaks in rendered text: the text that replaces newlines by
    "<br/>" has no newline left, is the input itself when the input has
    none, and distributes over concatenation, so each newline becomes one
    "<br/>" in place. *)
Theorem replace_newline_no_newline (s : str) :
  ~ In 10%N (replace_newline s)
  /\ (~ In 10%N s -> replace_newline s = s)
  /\ (forall a b, replace_newline (a ++ [10%N] ++ b)
                  = replace_newline a ++ lit "<br/>" ++ replace_newline b).
Proof.
  split; [|split].
  - apply replace_newline_free.
  - induction s as [|c s IH]; [reflexivity|]. intros H. cbn [replace_newline].
    destruct (N.eqb_spec c 10) as [->|Hc].
    + exfalso. apply H. left. reflexivity.
    + f_equal. apply IH. intros Hin. apply H. right. exact Hin.
  - intros a b. rewrite !replace_newline_app. reflexivity.
Qed.

(** X8. Every text cell built with [x or 'N/A'] (the free-text sections, the
    personal-history and generalities tables, the visit tables) holds a
    string without newline, and never the empty string. *)
Theorem text_or_NA_rendered (x : value) :
  exists t, text_or_NA x = Str t /\ ~ In 10%N t /\ t <> [].
Proof.
  unfold text_or_NA. eexists. split; [reflexivity|].
  split; [apply replace_newline_free|].
  unfold or_. destruct x as [|[|c s]]; cbn; try discriminate.
  destruct (c =? 10)%N; discriminate.
Qed.

(** X9. The size of the story: 31 flowables for the intake part, and for a
    non-empty visit list three more for the opening of the visit section and
    three per visit. *)
Theorem compose_story_length
    (intake_data : gmap string value) (visits : list visit) :
  length (compose_story intake_data visits)
  = (31 + (if bool_decide (visits = []) then 0 else 3 + 3 * length visits))%nat.
Proof.
  assert (Hb : forall (f : nat -> nat) (l : list visit),
             length (mjoin (imap (fun i v => visit_block (f i) v) l))
             = (3 * length l)%nat).
  { intros f l. revert f. induction l as [|v l IH]; intros f; [reflexivity|].
    cbn [imap mjoin list_join]. rewrite length_app.
    change (imap ((fun i v => visit_block (f i) v) ∘ S) l)
      with (imap (fun i v => visit_block ((f ∘ S) i) v) l).
    rewrite IH. cbn [length visit_block]. lia. }
  rewrite compose_story_blocks, length_app, intake_story_length.
  destruct visits as [|v rest]; [reflexivity|].
  rewrite bool_decide_eq_false_2 by discriminate.
  rewrite length_app, (Hb (fun i => (i + 1)%nat)). reflexivity.
Qed.

(* ===================================================================== *)
(** ** More about the store *)
(* ===================================================================== *)

Import View.

Section StateInvariant.

Implicit Types (a : PatientManagerApp) (c : command).

Lemma Forall_filter_keep {A} (P : A -> Prop) (p : A -> bool) (l : list A) :
  Forall P l -> Forall P (List.filter p l).
Proof.
  rewrite !Forall_forall. intros H x Hx. apply H.
  apply list_elem_of_In in Hx. apply list_elem_of_In.
  apply List.filter_In in Hx. tauto.
Qed.

Lemma edit_record_current patient a p :
  Store.current_patient_id (edit_record patient a) = Some p ->
  Store.current_patient_id a = Some p
  \/ (p = patient /\ exists r, In r (patients (store a)) /\ row_id r = p).
Proof.
  unfold edit_record.
  destruct (existsb _ _) eqn:E; [|auto]. cbn. intros H. injection H as <-.
  right. split; [reflexivity|]. apply existsb_exists in E as (r & Hr & Hid).
  exists r. split; [exact Hr|]. apply Z.eqb_eq, Hid.
Qed.

Lemma state_wf_edit_record patient a : state_wf a -> state_wf (edit_record patient a).
Proof.
  intros (H1 & H2 & H3 & H4 & H5 & H6). unfold state_wf.
  rewrite edit_record_store. repeat split; try assumption.
  intros p Hp. destruct (edit_record_current _ _ _ Hp) as [Hc|(-> & r & Hr & <-)].
  - exact (H6 p Hc).
  - rewrite Forall_forall in H2. apply H2, list_elem_of_In, Hr.
Qed.

Lemma save_followup_row_ok (f : followup_form) (current : Z) (n : Z) :
  (bool_decide (strip (fu_entry_date f) = [])
   || bool_decide (strip (strip (fu_text_treatment f)) = [])) = false ->
  visit_row_ok (VisitRow n current (fu_entry_date f) (strip (fu_text_complaints f))
                         (strip (fu_text_new_modalities f))
                         (strip (fu_text_treatment f))).
Proof.
  intros H. apply orb_false_iff in H as [Hd Ht].
  apply bool_decide_eq_false in Hd, Ht. rewrite strip_idem in Ht.
  unfold visit_row_ok. cbn [visit_date treatment complaints new_modalities].
  rewrite !strip_idem. auto.
Qed.

Lemma state_wf_run a c : state_wf a -> state_wf (run a c).
Proof.
  intros Hwf. destruct c as [e|e|f|sel confirm|p| |]; cbn [run].
  - (* save_patient *)
    unfold save_patient. destruct (validate_required_fields e) eqn:V; [|exact Hwf].
    apply state_wf_edit_record.
    destruct Hwf as (H1 & H2 & H3 & H4 & H5 & H6). unfold state_wf. cbn.
    split; [|split; [|split; [|split; [|split]]]].
    + rewrite List.map_app. apply NoDup_app. split; [exact H1|].
      split; [|apply NoDup_singleton].
      intros x Hx Hx'. apply list_elem_of_In in Hx, Hx'.
      cbn in Hx'. destruct Hx' as [<-|[]].
      apply in_map_iff in Hx as (y & Hy & Hin).
      rewrite Forall_forall in H2. apply list_elem_of_In, H2 in Hin. lia.
    + apply Forall_app. split.
      * eapply Forall_impl; [exact H2|]. cbn. intros; lia.
      * apply Forall_cons. split; [cbn; lia|apply Forall_nil; exact I].
    + apply Forall_app. split; [exact H3|].
      apply Forall_cons. split; [|apply Forall_nil; exact I].
      exists e. split; [exact V|reflexivity].
    + exact H4.
    + eapply Forall_impl; [exact H5|]. cbn. intros; lia.
    + intros p Hp. specialize (H6 p Hp). lia.
  - (* update_patient_intake *)
    unfold update_patient_intake.
    destruct (validate_required_fields e) eqn:V; [|exact Hwf].
    destruct (Store.current_patient_id a) as [cur|] eqn:C; [|exact Hwf].
    destruct Hwf as (H1 & H2 & H3 & H4 & H5 & H6). unfold state_wf.
    cbn [store patients visits next_patient_id next_visit_id Store.current_patient_id].
    set (update := fun r : patient_row => if (row_id r =? cur)%Z
                     then PatientRow (row_id r) (get_patient_data e) else r).
    assert (Hid : forall r, row_id (update r) = row_id r).
    { intros r. unfold update. destruct (row_id r =? cur)%Z; reflexivity. }
    split; [|split; [|split; [|split; [|split]]]].
    + rewrite List.map_map.
      rewrite (List.map_ext _ row_id Hid). exact H1.
    + rewrite Forall_forall in *. intros r Hr.
      apply list_elem_of_In, in_map_iff in Hr as (r0 & <- & Hr0).
      rewrite Hid. apply H2, list_elem_of_In, Hr0.
    + rewrite Forall_forall in *. intros r Hr.
      apply list_elem_of_In, in_map_iff in Hr as (r0 & <- & Hr0).
      unfold update. destruct (row_id r0 =? cur)%Z.
      * exists e. split; [exact V|reflexivity].
      * apply H3, list_elem_of_In, Hr0.
    + exact H4.
    + exact H5.
    + intros p Hp. apply H6. rewrite C. exact Hp.
  - (* save_followup *)
    unfold save_followup.
    destruct (Store.current_patient_id a) as [cur|] eqn:C; [|exact Hwf].
    unfold get_followup_data.
    destruct (bool_decide _ || bool_decide _) eqn:G; [exact Hwf|].
    destruct Hwf as (H1 & H2 & H3 & H4 & H5 & H6). unfold state_wf. cbn.
    repeat split; try assumption.
    + apply Forall_app. split; [exact H4|].
      apply Forall_cons. split; [|apply Forall_nil; exact I].
      apply save_followup_row_ok, G.
    + apply Forall_app. split; [exact H5|].
      apply Forall_cons. split; [|apply Forall_nil; exact I].
      cbn. apply H6, C.
    + intros p Hp. apply H6. rewrite C. exact Hp.
  - (* delete_patient_record *)
    unfold delete_patient_record. destruct sel as [p|]; [|exact Hwf].
    destruct confirm; [|exact Hwf].
    destruct Hwf as (H1 & H2 & H3 & H4 & H5 & H6). unfold state_wf. cbn.
    repeat split; try (apply Forall_filter_keep; assumption).
    + apply NoDup_map_filter, H1.
    + exact H6.
  - apply state_wf_edit_record, Hwf.
  - destruct Hwf as (H1 & H2 & H3 & H4 & H5 & H6). unfold state_wf. cbn.
    repeat split; try assumption. intros p Hp. discriminate Hp.
  - exact Hwf.
Qed.

Lemma state_wf_run_all cs a : state_wf a -> state_wf (run_all a cs).
Proof.
  revert a. induction cs as [|c cs IH]; intros a H; [exact H|].
  cbn [run_all fold_left]. apply IH, state_wf_run, H.
Qed.

Lemma state_wf_initial : state_wf initial.
Proof.
  unfold state_wf. cbn. repeat split; try (apply Forall_nil; exact I).
  - apply NoDup_nil_2.
  - intros p Hp. discriminate Hp.
Qed.

End StateInvariant.

Lemma get_patient_data_lookup (entries : gmap string widget) (i : nat) (key : string) :
  intake_keys !! i = Some key ->
  get_patient_data entries !! i
  = Some (if bool_decide (key = "entry_case_no")
          then pad_case_no (widget_content entries key)
          else widget_content entries key).
Proof.
  intros Hi. unfold get_patient_data.
  change (List.map ?f ?l) with (f <$> l).
  rewrite list_lookup_fmap, Hi. reflexivity.
Qed.

Lemma pad_case_no_nonempty (content : str) : content <> [] -> pad_case_no content <> [].
Proof.
  intros H. unfold pad_case_no. destruct content as [|c r]; [congruence|].
  destruct (numeric_part (c :: r)) as [|d ds] eqn:E; [discriminate|].
  intros Hz. apply (f_equal (@length N)) in Hz.
  rewrite zfill_length in Hz
    by (rewrite <- E; apply numeric_part_all_digits).
  unfold CASE_NO_PADDING_SIZE in Hz. cbn [length] in Hz. lia.
Qed.

Lemma validate_required_fields_spec (entries : gmap string widget) :
  validate_required_fields entries = true
  <-> widget_content entries "entry_name" <> []
      /\ widget_content entries "entry_case_no" <> [].
Proof.
  unfold validate_required_fields, widget_content.
  rewrite andb_true_iff, !negb_true_iff, !bool_decide_eq_false.
  destruct (entries !! "entry_name") as [[?|?]|],
           (entries !! "entry_case_no") as [[?|?]|]; tauto.
Qed.

Lemma patient_row_ok_facts (r : patient_row) :
  patient_row_ok r ->
  length (columns r) = 26%nat
  /\ Forall (fun v => strip v = v) (columns r)
  /\ name r <> [] /\ case_no r <> [].
Proof.
  intros (e & V & E). apply validate_required_fields_spec in V as [Vn Vc].
  unfold name, case_no, column. rewrite E.
  pose proof (get_patient_data_lookup e 2 "entry_name" eq_refl) as L2.
  pose proof (get_patient_data_lookup e 1 "entry_case_no" eq_refl) as L1.
  rewrite bool_decide_eq_false_2 in L2 by discriminate.
  rewrite bool_decide_eq_true_2 in L1 by reflexivity.
  unfold str in *. rewrite L1, L2. cbn [default].
  split; [reflexivity|]. split; [|split; [exact Vn|apply pad_case_no_nonempty, Vc]].
  unfold get_patient_data. apply Forall_forall. intros v Hv.
  apply list_elem_of_In, in_map_iff in Hv as (key & <- & _).
  destruct (bool_decide (key = "entry_case_no")).
  - apply pad_case_no_stripped, widget_content_stripped.
  - apply widget_content_stripped.
Qed.

(** X10. What the store holds in any state the program reaches: patient
    keys are distinct; every patient row has its 26 columns, all trimmed,
    with a name and a case number that are not empty; every visit row has a
    date and a treatment that are not blank, trimmed texts, and the key of a
    patient that was issued. *)
Theorem stored_rows_wellformed (cs : list command) :
  let d := store (run_all initial cs) in
  NoDup (List.map row_id (patients d))
  /\ (forall r, In r (patients d) ->
        length (columns r) = length patient_cols
        /\ Forall (fun v => strip v = v) (columns r)
        /\ name r <> [] /\ case_no r <> []
        /\ (row_id r < next_patient_id d)%Z)
  /\ (forall v, In v (visits d) ->
        strip (visit_date v) <> [] /\ treatment v <> []
        /\ strip (complaints v) = complaints v
        /\ strip (new_modalities v) = new_modalities v
        /\ strip (treatment v) = treatment v
        /\ (patient_id v < next_patient_id d)%Z).
Proof.
  cbv zeta.
  destruct (state_wf_run_all cs initial state_wf_initial)
    as (H1 & H2 & H3 & H4 & H5 & _).
  pose proof (proj1 (Forall_forall _ _) H2) as H2'.
  pose proof (proj1 (Forall_forall _ _) H3) as H3'.
  pose proof (proj1 (Forall_forall _ _) H4) as H4'.
  pose proof (proj1 (Forall_forall _ _) H5) as H5'.
  split; [exact H1|]. split.
  - intros r Hr. apply list_elem_of_In in Hr.
    destruct (patient_row_ok_facts r (H3' r Hr)) as (L & T & Hn & Hc).
    repeat split; auto.
  - intros v Hv. apply list_elem_of_In in Hv.
    destruct (H4' v Hv) as (A & B & C & D & E). repeat split; auto.
Qed.

Lemma run_patient_ids (a : PatientManagerApp) (c : command) :
  (next_patient_id (store a) <= next_patient_id (store (run a c)))%Z
  /\ forall r, In r (patients (store (run a c))) ->
       (exists r0, In r0 (patients (store a)) /\ row_id r0 = row_id r)
       \/ (next_patient_id (store a) <= row_id r)%Z.
Proof.
  destruct c as [e|e|f|sel confirm|p| |]; cbn [run].
  - unfold save_patient. destruct (validate_required_fields e).
    + rewrite edit_record_store. cbn. split; [lia|]. intros r Hr.
      apply in_app_iff in Hr as [Hr|[<-|[]]]; [left; eauto|right; cbn; lia].
    + split; [lia|]. intros r Hr. left; eauto.
  - unfold update_patient_intake. destruct (validate_required_fields e).
    + destruct (Store.current_patient_id a) as [cur|]; cbn.
      * split; [lia|]. intros r Hr. left.
        apply in_map_iff in Hr as (r0 & <- & Hr0). exists r0. split; [exact Hr0|].
        destruct (row_id r0 =? cur)%Z; reflexivity.
      * split; [lia|]. intros r Hr. left; eauto.
    + split; [lia|]. intros r Hr. left; eauto.
  - unfold save_followup. destruct (Store.current_patient_id a) as [cur|].
    + unfold get_followup_data. destruct (bool_decide _ || bool_decide _); cbn;
        (split; [lia|]; intros r Hr; left; eauto).
    + split; [lia|]. intros r Hr. left; eauto.
  - unfold delete_patient_record. destruct sel as [p|]; [destruct confirm|]; cbn.
    + split; [lia|]. intros r Hr. apply List.filter_In in Hr as [Hr _]. left; eauto.
    + split; [lia|]. intros r Hr. left; eauto.
    + split; [lia|]. intros r Hr. left; eauto.
  - rewrite edit_record_store. split; [lia|]. intros r Hr. left; eauto.
  - cbn. split; [lia|]. intros r Hr. left; eauto.
  - unfold init_db. split; [lia|]. intros r Hr. left; eauto.
Qed.

(** X11. Patient keys are never reused: whatever the commands, the counter
    never goes down, and a patient row of the later state has a key that was
    in the table before or a key at or above the earlier counter. So a key
    that was issued and is no longer in the table never comes back. *)
Theorem patient_keys_never_reused (a : PatientManagerApp) (cs : list command) :
  (next_patient_id (store a) <= next_patient_id (store (run_all a cs)))%Z
  /\ (forall r, In r (patients (store (run_all a cs))) ->
        (exists r0, In r0 (patients (store a)) /\ row_id r0 = row_id r)
        \/ (next_patient_id (store a) <= row_id r)%Z)
  /\ (forall p, (p < next_patient_id (store a))%Z ->
        (forall r0, In r0 (patients (store a)) -> row_id r0 <> p) ->
        forall r, In r (patients (store (run_all a cs))) -> row_id r <> p).
Proof.
  assert (H : (next_patient_id (store a) <= next_patient_id (store (run_all a cs)))%Z
     /\ (forall r, In r (patients (store (run_all a cs))) ->
        (exists r0, In r0 (patients (store a)) /\ row_id r0 = row_id r)
        \/ (next_patient_id (store a) <= row_id r)%Z)).
  { revert a. induction cs as [|c cs IH]; intros a.
    - unfold run_all. cbn [fold_left]. split; [lia|]. intros r Hr. left; eauto.
    - unfold run_all in *. cbn [fold_left]. destruct (IH (run a c)) as [Hn Hr].
      destruct (run_patient_ids a c) as [Hn1 Hr1]. split; [lia|].
      intros r Hin. destruct (Hr r Hin) as [(r1 & Hr1' & E)|Hge]; [|right; lia].
      destruct (Hr1 r1 Hr1') as [(r0 & Hr0 & E0)|Hge]; [|right; lia].
      left. exists r0. split; [exact Hr0|congruence]. }
  destruct H as [Hn Hr]. split; [exact Hn|]. split; [exact Hr|].
  intros p Hp Hnot r Hin E.
  destruct (Hr r Hin) as [(r0 & Hr0 & E0)|Hge]; [|lia].
  apply (Hnot r0 Hr0). congruence.
Qed.

Section FetchFacts.

Lemma find_snoc {A} (f : A -> bool) (l : list A) (x : A) :
  List.find f (l ++ [x])
  = match List.find f l with
    | Some y => Some y
    | None => if f x then Some x else None
    end.
Proof.
  induction l as [|y l IH]; cbn [List.app List.find]; [reflexivity|].
  destruct (f y); [reflexivity|exact IH].
Qed.

Lemma find_none_below (l : list patient_row) (n : Z) :
  Forall (fun r => (row_id r < n)%Z) l ->
  List.find (fun r => (row_id r =? n)%Z) l = None.
Proof.
  induction 1 as [|r l Hr _ IH]; [reflexivity|]. cbn [List.find].
  destruct (Z.eqb_spec (row_id r) n); [lia|exact IH].
Qed.

Lemma find_map_same_key (update : patient_row -> patient_row)
    (l : list patient_row) (q : Z) :
  (forall r, row_id (update r) = row_id r) ->
  List.find (fun r => (row_id r =? q)%Z) (List.map update l)
  = update <$> List.find (fun r => (row_id r =? q)%Z) l.
Proof.
  intros Hid. induction l as [|r l IH]; [reflexivity|].
  cbn [List.map List.find]. rewrite Hid.
  destruct (row_id r =? q)%Z; [reflexivity|exact IH].
Qed.

Lemma find_key (l : list patient_row) (q : Z) (r : patient_row) :
  List.find (fun r => (row_id r =? q)%Z) l = Some r -> row_id r = q /\ In r l.
Proof.
  intros H. apply List.find_some in H as [Hin Hq]. apply Z.eqb_eq in Hq. auto.
Qed.

End FetchFacts.

(** X12. Saving a new patient, in any state the program reaches. With a name
    and a case number in the form, the row gets the next key, fetching that
    key returns the values read from the form, the new patient becomes the
    loaded one, and fetching any other key returns what it returned before;
    the visits are untouched. Without a name or a case number nothing
    changes. *)
Theorem save_patient_then_fetch (cs : list command) (entries : gmap string widget) :
  let a := run_all initial cs in
  let a' := save_patient entries a in
  let n := next_patient_id (store a) in
  (validate_required_fields entries = true ->
     fetch_patient (store a') n = Some (PatientRow n (get_patient_data entries))
     /\ Store.current_patient_id a' = Some n
     /\ (forall p, p <> n -> fetch_patient (store a') p = fetch_patient (store a) p)
     /\ visits (store a') = visits (store a)
     /\ count_all_patients (store a') = S (count_all_patients (store a)))
  /\ (validate_required_fields entries = false -> a' = a).
Proof.
  cbv zeta. set (a := run_all initial cs).
  destruct (state_wf_run_all cs initial state_wf_initial) as (_ & H2 & _).
  fold a in H2. unfold save_patient.
  split; intros V; rewrite V; [|reflexivity].
  set (n := next_patient_id (store a)).
  set (row := PatientRow n (get_patient_data entries)).
  assert (Hex : existsb (fun p => (row_id p =? n)%Z) (patients (store a) ++ [row]) = true).
  { apply existsb_exists. exists row. split; [apply in_app_iff; right; left; reflexivity|].
    apply Z.eqb_refl. }
  unfold edit_record. cbn [store patients]. rewrite Hex.
  cbn [store patients visits Store.current_patient_id].
  unfold fetch_patient, count_all_patients. cbn [patients].
  split; [|split; [reflexivity|split; [|split]]].
  - rewrite find_snoc, (find_none_below _ n H2). cbn [row_id row].
    rewrite Z.eqb_refl. reflexivity.
  - intros p Hp. rewrite find_snoc.
    destruct (List.find _ (patients (store a))); [reflexivity|].
    cbn [row_id row]. destruct (Z.eqb_spec n p); [congruence|reflexivity].
  - reflexivity.
  - rewrite length_app. cbn [length]. lia.
Qed.

Lemma save_patient_then_fetch_witness :
  validate_required_fields session_entries = true
  /\ fetch_patient (store (save_patient session_entries (run_all initial [])))
       (next_patient_id (store (run_all initial [])))
     = Some (PatientRow (next_patient_id (store (run_all initial [])))
                        (get_patient_data session_entries)).
Proof.
  split; [reflexivity|].
  exact (proj1 (proj1 (save_patient_then_fetch [] session_entries) eq_refl)).
Defined.

(** X13. Updating the intake of the loaded patient, in any state. With a
    valid form, fetching the loaded key returns the row with the values read
    from the form, when the row exists; fetching any other key returns what
    it returned before; keys, their order and the visits are untouched. With
    no patient loaded, or without a name or a case number, nothing
    changes. *)
Theorem update_patient_intake_then_fetch
    (a : PatientManagerApp) (entries : gmap string widget) :
  let a' := update_patient_intake entries a in
  (forall p, Store.current_patient_id a = Some p ->
     validate_required_fields entries = true ->
     (forall r, fetch_patient (store a) p = Some r ->
        fetch_patient (store a') p = Some (PatientRow p (get_patient_data entries)))
     /\ (fetch_patient (store a) p = None -> fetch_patient (store a') p = None)
     /\ (forall q, q <> p -> fetch_patient (store a') q = fetch_patient (store a) q)
     /\ List.map row_id (patients (store a')) = List.map row_id (patients (store a))
     /\ visits (store a') = visits (store a))
  /\ (Store.current_patient_id a = None \/ validate_required_fields entries = false ->
      a' = a).
Proof.
  cbv zeta. unfold update_patient_intake. split.
  - intros p C V. rewrite V, C.
    cbn [store patients visits]. unfold fetch_patient. cbn [patients].
    set (update := fun r : patient_row => if (row_id r =? p)%Z
                     then PatientRow (row_id r) (get_patient_data entries) else r).
    assert (Hid : forall r, row_id (update r) = row_id r).
    { intros r. unfold update. destruct (row_id r =? p)%Z; reflexivity. }
    split; [|split; [|split; [|split]]].
    + intros r Hr. rewrite (find_map_same_key update _ p Hid), Hr.
      apply find_key in Hr as [Hk _]. cbn. unfold update.
      rewrite <- Hk, Z.eqb_refl. reflexivity.
    + intros Hn. rewrite (find_map_same_key update _ p Hid), Hn. reflexivity.
    + intros q Hq. rewrite (find_map_same_key update _ q Hid).
      destruct (List.find _ (patients (store a))) as [r|] eqn:E; [|reflexivity].
      apply find_key in E as [Hk _]. cbn. unfold update.
      destruct (Z.eqb_spec (row_id r) p); [congruence|reflexivity].
    + rewrite List.map_map. apply List.map_ext, Hid.
    + reflexivity.
  - intros [C|V].
    + rewrite C. destruct (validate_required_fields entries); reflexivity.
    + rewrite V. reflexivity.
Qed.

(* ===================================================================== *)
(** ** More about the data handed to the composer *)
(* ===================================================================== *)

Lemma patient_cols_NoDup : NoDup patient_cols.
Proof. apply (bool_decide_unpack _). vm_compute. reflexivity. Qed.

Lemma lookup_zip_Some {A B} (l : list A) (k : list B) (i : nat) (x : A) (y : B) :
  l !! i = Some x -> k !! i = Some y -> zip l k !! i = Some (x, y).
Proof.
  revert k i. induction l as [|a l IH]; intros [|b k] [|i]; cbn; try discriminate.
  - intros H1 H2. injection H1 as ->. injection H2 as ->. reflexivity.
  - apply IH.
Qed.

Lemma lookup_fmap_Some' {A B} (f : A -> B) (l : list A) (i : nat) (x : A) :
  l !! i = Some x -> (List.map f l) !! i = Some (f x).
Proof.
  revert i. induction l as [|a l IH]; intros [|i]; cbn; try discriminate.
  - intros H. injection H as ->. reflexivity.
  - apply IH.
Qed.

Lemma zip_cols_lookup (cols : list string) (vals : list str) (i : nat) (key : string) :
  NoDup cols -> length cols = length vals ->
  cols !! i = Some key ->
  (list_to_map (zip cols (List.map Str vals)) : gmap string value) !! key
  = Some (Str (default [] (vals !! i))).
Proof.
  intros Hnd Hlen Hi. unfold str in *.
  assert (Hv : exists v, vals !! i = Some v).
  { apply lookup_lt_is_Some. rewrite <- Hlen. apply lookup_lt_is_Some. eauto. }
  destruct Hv as [v Hv]. rewrite Hv. cbn [default].
  apply elem_of_list_to_map_1.
  - rewrite fst_zip; [exact Hnd|].
    change (List.map Str vals) with (Str <$> vals).
    rewrite length_fmap. unfold str in *. lia.
  - apply list_elem_of_lookup. exists i.
    apply lookup_zip_Some; [exact Hi|].
    apply (lookup_fmap_Some' Str), Hv.
Qed.

Lemma zip_cols_lookup_none (cols : list string) (vals : list str) (key : string) :
  key ∉ cols ->
  (list_to_map (zip cols (List.map Str vals)) : gmap string value) !! key = None.
Proof.
  intros Hk. apply not_elem_of_list_to_map_1. intros Hin. apply Hk.
  apply list_elem_of_fmap in Hin as ([k v] & -> & Hin).
  apply elem_of_zip_l in Hin. exact Hin.
Qed.

(** X14. What [get_full_patient_data] returns for the intake, in any state
    the program reaches: nothing when no row has the key, and otherwise a
    mapping with exactly the 26 column names, each column of the fetched row
    under its name, the case number in its display form. *)
Theorem get_full_patient_data_intake (cs : list command) (patient : Z) :
  let d := store (run_all initial cs) in
  (get_full_patient_data d patient = None <-> fetch_patient d patient = None)
  /\ (forall r, fetch_patient d patient = Some r ->
        exists intake_data visit_records,
          get_full_patient_data d patient = Some (intake_data, visit_records)
          /\ intake_data !! "case_no" = Some (Str (decode (case_no r)))
          /\ (forall i key, patient_cols !! i = Some key -> key <> "case_no" ->
                intake_data !! key = Some (Str (column i r)))
          /\ (forall key, key ∉ patient_cols -> intake_data !! key = None)).
Proof.
  cbv zeta. set (d := store (run_all initial cs)).
  destruct (state_wf_run_all cs initial state_wf_initial) as (_ & _ & H3 & _).
  fold d in H3. unfold get_full_patient_data, fetch_patient. split.
  - destruct (List.find _ (patients d)); split; congruence.
  - intros r Hr. rewrite Hr. eexists _, _. split; [reflexivity|].
    apply find_key in Hr as [_ Hin].
    rewrite Forall_forall in H3. apply list_elem_of_In, H3 in Hin.
    destruct (patient_row_ok_facts r Hin) as (L & _).
    assert (Hlen : length patient_cols = length (columns r)) by (rewrite L; reflexivity).
    split; [|split].
    + rewrite lookup_insert_eq.
      rewrite (zip_cols_lookup patient_cols (columns r) 1 "case_no"
                 patient_cols_NoDup Hlen eq_refl).
      reflexivity.
    + intros i key Hi Hkey. rewrite lookup_insert_ne by congruence.
      apply (zip_cols_lookup _ _ _ _ patient_cols_NoDup Hlen Hi).
    + intros key Hkey. rewrite lookup_insert_ne.
      * apply zip_cols_lookup_none, Hkey.
      * intros <-. apply Hkey. apply list_elem_of_lookup. exists 1%nat. reflexivity.
Qed.

(** X15. The visits handed to the composer are exactly the visit rows of the
    patient: a visit tuple is in the sequence exactly when it comes from a
    row with the patient's key, and there are as many tuples as such rows. *)
Theorem get_full_patient_data_visits
    (d : db) (patient : Z)
    (intake_data : gmap string value) (visit_records : list Report.visit) :
  get_full_patient_data d patient = Some (intake_data, visit_records) ->
  (forall t, In t visit_records <->
             exists v, In v (visits d) /\ patient_id v = patient
                       /\ t = visit_tuple v)
  /\ length visit_records
     = length (List.filter (fun v => (patient_id v =? patient)%Z) (visits d)).
Proof.
  intros H. unfold get_full_patient_data in H.
  destruct (List.find _ (patients d)); [|discriminate H].
  injection H as _ <-. unfold select_visits.
  pose proof (merge_sort_Permutation date_text_le
                (List.filter (fun v => (patient_id v =? patient)%Z) (visits d))) as P.
  split.
  - intros t. rewrite <- list_elem_of_In, list_elem_of_fmap. split.
    + intros (v & -> & Hv). rewrite P in Hv.
      apply list_elem_of_In, List.filter_In in Hv as [Hin Hp].
      exists v. apply Z.eqb_eq in Hp. auto.
    + intros (v & Hin & Hp & ->). exists v. split; [reflexivity|].
      rewrite P. apply list_elem_of_In, List.filter_In.
      split; [exact Hin|apply Z.eqb_eq, Hp].
  - rewrite length_fmap. apply Permutation_length, P.
Qed.

Lemma get_full_patient_data_visits_witness :
  exists intake_data visit_records,
    get_full_patient_data (store (run_all initial session)) 1
    = Some (intake_data, visit_records)
    /\ length visit_records = 2%nat.
Proof.
  destruct (get_full_patient_data (store (run_all initial session)) 1)
    as [[intake_data visit_records]|] eqn:E; [|vm_compute in E; discriminate E].
  exists intake_data, visit_records. split; [reflexivity|].
  rewrite (proj2 (get_full_patient_data_visits _ _ _ _ E)).
  vm_compute. reflexivity.
Defined.

(* ===================================================================== *)
(** ** The search list *)
(* ===================================================================== *)

Section LikeFacts.

Lemma like_percent_unfold (p s : str) :
  like (37%N :: p) s
  = like p s || match s with
                | [] => false
                | _ :: s' => like (37%N :: p) s'
                end.
Proof. destruct s; reflexivity. Qed.

(** [%] alone matches everything. *)
Lemma like_percent_any (s : str) : like [37%N] s = true.
Proof.
  induction s as [|c s IH]; [reflexivity|].
  rewrite like_percent_unfold, IH. apply orb_true_r.
Qed.

(** [%] may skip any prefix. *)
Lemma like_percent_skip (p pre s : str) :
  like (37%N :: p) s = true -> like (37%N :: p) (pre ++ s) = true.
Proof.
  intros H. induction pre as [|c pre IH]; [exact H|].
  cbn [List.app]. rewrite like_percent_unfold, IH. apply orb_true_r.
Qed.

Lemma like_percent_here (p s : str) :
  like p s = true -> like (37%N :: p) s = true.
Proof. intros H. rewrite like_percent_unfold, H. reflexivity. Qed.

(** A pattern matches itself, whatever its characters, in front of a match
    of the rest. *)
Lemma like_same_prefix (q r s : str) :
  like r s = true -> like (q ++ r) (q ++ s) = true.
Proof.
  intros H. induction q as [|c q IH]; [exact H|].
  cbn [List.app]. destruct (N.eqb_spec c 37) as [->|Hc].
  - rewrite like_percent_unfold.
    change (match 37%N :: q ++ s with
            | [] => false
            | _ :: s' => like (37%N :: q ++ r) s'
            end) with (like (37%N :: q ++ r) (q ++ s)).
    rewrite (like_percent_here _ _ IH). apply orb_true_r.
  - cbn [like]. destruct (N.eqb_spec c 37) as [|_]; [congruence|].
    rewrite N.eqb_refl, orb_true_r, IH. reflexivity.
Qed.

(** [%query%] matches every string that contains the query. *)
Lemma like_contains (query pre post : str) :
  like (lit "%" ++ query ++ lit "%") (pre ++ query ++ post) = true.
Proof.
  change (lit "%" ++ query ++ lit "%") with (37%N :: (query ++ [37%N])).
  apply like_percent_skip, like_percent_here, like_same_prefix, like_percent_any.
Qed.

End LikeFacts.

Lemma lstrip_by_suffix (p : N -> bool) (s : str) :
  exists pre, s = pre ++ lstrip_by p s.
Proof.
  induction s as [|c s [pre IH]]; [exists []; reflexivity|].
  cbn [lstrip_by]. destruct (p c).
  - exists (c :: pre). cbn. f_equal. exact IH.
  - exists []. reflexivity.
Qed.

(** The display form of a stored case number is a part of it. *)
Lemma decode_contained (c : str) : exists pre post, c = pre ++ decode c ++ post.
Proof.
  unfold decode, _unpad_case_no. destruct (match_padded c) eqn:M.
  - destruct (lstrip_zero c) as [|x u] eqn:E.
    + destruct (match_padded_head c M) as [t ->]. exists [], t. reflexivity.
    + destruct (lstrip_by_suffix (N.eqb 48) c) as [pre Hpre].
      fold (lstrip_zero c) in Hpre. rewrite E in Hpre.
      exists pre, []. rewrite app_nil_r. exact Hpre.
  - exists [], []. rewrite app_nil_r. reflexivity.
Qed.

#[local] Instance case_no_le_total : Total case_no_le.
Proof. intros r1 r2. apply str_leb_total. Qed.

#[local] Instance case_no_le_trans : Transitive case_no_le.
Proof. intros r1 r2 r3. apply str_leb_trans. Qed.

(** X16. The search list: its rows are the patients whose stored case number
    or name matches [%query%], each exactly as often as in the table, in
    ascending order of the stored case number; each row shows the patient
    key as identifier and the case number in its display form. An empty
    query lists every patient. *)
Theorem search_patient_results (d : db) (query : str) :
  let pattern := lit "%" ++ query ++ lit "%" in
  StronglySorted case_no_le (search_rows d query)
  /\ search_rows d query
     ≡ₚ List.filter (fun r => like pattern (case_no r) || like pattern (name r))
                    (patients d)
  /\ (forall r, In r (search_rows d query) <->
        In r (patients d)
        /\ (like pattern (case_no r) = true \/ like pattern (name r) = true))
  /\ search_patient d query
     = (fun r => TreeRow (row_id r)
                   [decode (case_no r); name r; date_col r; age r; gender r])
         <$> search_rows d query
  /\ (query = [] -> search_rows d query ≡ₚ patients d).
Proof.
  cbv zeta. unfold search_rows.
  set (pattern := lit "%" ++ query ++ lit "%").
  set (matches := fun r => like pattern (case_no r) || like pattern (name r)).
  pose proof (merge_sort_Permutation case_no_le (List.filter matches (patients d))) as P.
  split; [|split; [exact P|split; [|split]]].
  - apply @StronglySorted_merge_sort;
      first [exact case_no_le_trans | exact case_no_le_total].
  - intros r. rewrite <- list_elem_of_In, P, list_elem_of_In.
    rewrite List.filter_In. unfold matches. rewrite orb_true_iff. reflexivity.
  - reflexivity.
  - intros ->. rewrite P.
    assert (Hall : forall r, matches r = true).
    { intros r. unfold matches, pattern. cbn [List.app].
      change (lit "%" ++ lit "%") with (37%N :: [37%N]).
      rewrite (like_percent_here _ _ (like_percent_any _)). reflexivity. }
    clear P. induction (patients d) as [|r l IH]; [reflexivity|].
    cbn [List.filter]. rewrite Hall, IH. reflexivity.
Qed.

(** X17. A patient is always found by what the lists show: searching for the
    displayed case number of a row, for its stored case number, or for its
    name lists the row. *)
Theorem search_finds_displayed (d : db) (r : patient_row) :
  In r (patients d) ->
  In r (search_rows d (decode (case_no r)))
  /\ In r (search_rows d (case_no r))
  /\ In r (search_rows d (name r)).
Proof.
  intros Hin.
  assert (Hfound : forall query,
            like (lit "%" ++ query ++ lit "%") (case_no r) = true
            \/ like (lit "%" ++ query ++ lit "%") (name r) = true ->
            In r (search_rows d query)).
  { intros query Hm. unfold search_rows.
    rewrite <- list_elem_of_In, merge_sort_Permutation, list_elem_of_In.
    apply List.filter_In. split; [exact Hin|]. apply orb_true_iff, Hm. }
  split; [|split]; apply Hfound.
  - left. destruct (decode_contained (case_no r)) as (pre & post & E).
    rewrite E at 2. apply like_contains.
  - left. rewrite <- (app_nil_r (case_no r)) at 2.
    apply (like_contains (case_no r) [] []).
  - right. rewrite <- (app_nil_r (name r)) at 2.
    apply (like_contains (name r) [] []).
Qed.

Lemma search_finds_displayed_witness :
  exists r,
    In r (patients (store (run_all initial session)))
    /\ decode (case_no r) = lit "12"
    /\ In r (search_rows (store (run_all initial session)) (lit "12")).
Proof.
  eexists. split; [left; reflexivity|]. split; [reflexivity|].
  refine (proj1 (search_finds_displayed (store (run_all initial session)) _ _)).
  left. reflexivity.
Defined.

(* ===================================================================== *)
(** ** The pages of the list of all records *)
(* ===================================================================== *)

Section Chunks.

Context {A : Type}.

(** Cutting a list in [n] pieces of [m] elements gives it back when the
    pieces cover it. *)
Lemma chunks_concat (m : nat) (l : list A) (n : nat) :
  (0 < m)%nat -> (length l <= n * m)%nat ->
  concat (List.map (fun k => take m (drop (k * m) l)) (seq 0 n)) = l.
Proof.
  intros Hm. revert l. induction n as [|n IH]; intros l Hl.
  - destruct l; [reflexivity|cbn in Hl; lia].
  - cbn [seq List.map concat]. rewrite Nat.mul_0_l, drop_0.
    rewrite <- seq_shift, List.map_map.
    rewrite (List.map_ext _ (fun k => take m (drop (k * m) (drop m l)))).
    + rewrite IH; [apply take_drop|]. rewrite length_drop. lia.
    + intros k. rewrite drop_drop. do 2 f_equal; lia.
Qed.

End Chunks.

Lemma concat_map_fmap {A B C} (f : A -> B) (g : C -> list A) (ks : list C) :
  concat (List.map (fun k => f <$> g k) ks) = f <$> concat (List.map g ks).
Proof.
  induction ks as [|k ks IH]; [reflexivity|].
  cbn [List.map concat]. rewrite fmap_app, IH. reflexivity.
Qed.

Lemma total_pages_cover (n : nat) :
  (n <= total_pages_of n * RECORDS_PER_PAGE)%nat
  /\ (0 < n -> 0 < total_pages_of n)%nat
  /\ (0 < n -> (total_pages_of n - 1) * RECORDS_PER_PAGE < n)%nat.
Proof.
  unfold total_pages_of, RECORDS_PER_PAGE. cbn [Nat.sub].
  pose proof (Nat.div_mod_eq (n + 29) 30) as E.
  pose proof (Nat.mod_upper_bound (n + 29) 30) as B.
  repeat split; lia.
Qed.

Lemma load_all_records_in_range (d : db) (k : nat) :
  (k < total_pages_of (count_all_patients d))%nat ->
  rows (load_all_records d (Z.of_nat (S k)))
  = display_row <$> take RECORDS_PER_PAGE
                      (drop (k * RECORDS_PER_PAGE) (all_rows_sorted d)).
Proof.
  intros Hk. unfold load_all_records.
  destruct (Nat.eqb_spec (count_all_patients d) 0) as [E|_].
  - rewrite E in Hk. cbn in Hk. lia.
  - destruct (Z.ltb_spec (Z.of_nat (S k)) 1); [lia|].
    destruct (Z.gtb_spec (Z.of_nat (S k))
                (Z.of_nat (total_pages_of (count_all_patients d)))); [lia|].
    cbn [rows]. do 3 f_equal. unfold RECORDS_PER_PAGE. lia.
Qed.

(** X18. The pages of the list of all records cover the table: going through
    the pages 1 to [total_pages] shows the patients in ascending order of
    the stored case number, each row of the table exactly once. *)
Theorem pages_show_every_patient_once (d : db) :
  let all_pages :=
    concat (List.map (fun k => rows (load_all_records d (Z.of_nat (S k))))
                     (seq 0 (total_pages_of (count_all_patients d)))) in
  all_pages = display_row <$> all_rows_sorted d
  /\ all_rows_sorted d ≡ₚ patients d
  /\ StronglySorted case_no_le (all_rows_sorted d)
  /\ List.map iid all_pages ≡ₚ List.map row_id (patients d).
Proof.
  cbv zeta.
  assert (E : concat (List.map (fun k => rows (load_all_records d (Z.of_nat (S k))))
                     (seq 0 (total_pages_of (count_all_patients d))))
              = display_row <$> all_rows_sorted d).
  { rewrite (List.map_ext_in _
       (fun k => display_row <$> take RECORDS_PER_PAGE
                   (drop (k * RECORDS_PER_PAGE) (all_rows_sorted d)))).
    - rewrite concat_map_fmap, chunks_concat; [reflexivity| |].
      + unfold RECORDS_PER_PAGE. lia.
      + unfold all_rows_sorted.
        rewrite (Permutation_length (merge_sort_Permutation _ _)).
        apply total_pages_cover.
    - intros k Hk. apply in_seq in Hk. apply load_all_records_in_range. lia. }
  pose proof (merge_sort_Permutation case_no_le (patients d)) as P.
  split; [exact E|]. split; [exact P|]. split.
  - apply @StronglySorted_merge_sort;
      first [exact case_no_le_trans | exact case_no_le_total].
  - rewrite E. unfold all_rows_sorted.
    change (List.map iid (display_row <$> ?l)) with (iid <$> (display_row <$> l)).
    rewrite <- list_fmap_compose.
    change (List.map row_id (patients d)) with (row_id <$> patients d).
    rewrite P. reflexivity.
Qed.

(** X19. One page of the list of all records. With an empty table the page
    is empty, numbered 1, with both buttons off. Otherwise the requested
    number is brought into the range 1 to [total_pages], the page has
    between 1 and 30 rows, and the buttons tell whether a page comes before
    and after. *)
Theorem load_all_records_page (d : db) (page_number : Z) :
  let view := load_all_records d page_number in
  total_pages view = total_pages_of (count_all_patients d)
  /\ (count_all_patients d = 0%nat ->
        current_page view = 1%Z /\ rows view = []
        /\ btn_prev view = false /\ btn_next view = false)
  /\ (count_all_patients d <> 0%nat ->
        (1 <= current_page view <= Z.of_nat (total_pages view))%Z
        /\ current_page view
           = Z.max 1 (Z.min page_number (Z.of_nat (total_pages view)))
        /\ (0 < length (rows view) <= RECORDS_PER_PAGE)%nat
        /\ (btn_prev view = true <-> (1 < current_page view)%Z)
        /\ (btn_next view = true
            <-> (current_page view < Z.of_nat (total_pages view))%Z)).
Proof.
  cbv zeta. unfold load_all_records.
  destruct (Nat.eqb_spec (count_all_patients d) 0) as [E|E].
  - cbn. split; [reflexivity|]. split; [auto|congruence].
  - set (n := count_all_patients d) in *.
    destruct (total_pages_cover n) as (Hc & Hp & Hl).
    set (tp := total_pages_of n) in *.
    set (page := if (page_number <? 1)%Z then 1%Z
                 else if (page_number >? Z.of_nat tp)%Z then Z.of_nat tp
                 else page_number).
    assert (Hpage : (1 <= page <= Z.of_nat tp)%Z
                    /\ page = Z.max 1 (Z.min page_number (Z.of_nat tp))).
    { unfold page. destruct (Z.ltb_spec page_number 1);
        [|destruct (Z.gtb_spec page_number (Z.of_nat tp))]; lia. }
    destruct Hpage as [Hr Hclamp].
    cbn [total_pages current_page rows btn_prev btn_next].
    split; [reflexivity|]. split; [congruence|]. intros _.
    split; [exact Hr|]. split; [exact Hclamp|].
    split; [|split; [rewrite Z.gtb_ltb; apply Z.ltb_lt|apply Z.ltb_lt]].
    rewrite length_fmap, length_take, length_drop.
    unfold all_rows_sorted.
    rewrite (Permutation_length (merge_sort_Permutation _ _)).
    fold (count_all_patients d). fold n.
    assert ((Z.to_nat ((page - 1) * Z.of_nat RECORDS_PER_PAGE)
             <= (tp - 1) * RECORDS_PER_PAGE)%nat).
    { unfold RECORDS_PER_PAGE in *. nia. }
    unfold RECORDS_PER_PAGE in *. lia.
Qed.

(* ===================================================================== *)
(** ** The visit history list *)
(* ===================================================================== *)

Lemma shorten_spec (text : str) :
  (length (shorten text) <= 53)%nat
  /\ ((length text <= 50)%nat -> shorten text = text)
  /\ ((50 < length text)%nat -> shorten text = take 50 text ++ lit "...")
  /\ take 50 (shorten text) = take 50 text.
Proof.
  unfold shorten. destruct (Nat.ltb_spec 50 (length text)) as [H|H].
  - split; [|split; [lia|split; [reflexivity|]]].
    + rewrite length_app, length_take.
      change (length (lit "...")) with 3%nat. lia.
    + rewrite take_app_le by (rewrite length_take; lia).
      apply take_take.
  - split; [lia|]. split; [reflexivity|]. split; [lia|reflexivity].
Qed.

#[local] Instance date_text_ge_total : Total date_text_ge.
Proof. intros v w. apply str_leb_total. Qed.

#[local] Instance date_text_ge_trans : Transitive date_text_ge.
Proof. intros u v w H1 H2. exact (str_leb_trans _ _ _ H2 H1). Qed.

(** X20. The visit history of the loaded patient lists exactly the visit
    rows of that patient, latest date text first, each under its visit key;
    the complaints and the treatment are shown whole when they have at most
    50 characters and otherwise cut to their first 50 characters followed by
    "...", so never longer than 53. With no patient loaded the list is left
    as it is. *)
Theorem populate_visit_history_rows (a : PatientManagerApp) :
  (Store.current_patient_id a = None -> populate_visit_history a = None)
  /\ (forall p, Store.current_patient_id a = Some p ->
        exists shown,
          StronglySorted date_text_ge shown
          /\ shown ≡ₚ List.filter (fun v => (patient_id v =? p)%Z) (visits (store a))
          /\ populate_visit_history a
             = Some ((fun v => (visit_id v,
                                (visit_date v, shorten (complaints v),
                                 shorten (treatment v)))) <$> shown)
          /\ Forall (fun v =>
               (length (shorten (complaints v)) <= 53)%nat
               /\ (length (shorten (treatment v)) <= 53)%nat
               /\ ((length (complaints v) <= 50)%nat ->
                   shorten (complaints v) = complaints v)
               /\ ((50 < length (complaints v))%nat ->
                   shorten (complaints v) = take 50 (complaints v) ++ lit "...")) shown).
Proof.
  unfold populate_visit_history. split.
  - intros ->. reflexivity.
  - intros p ->. eexists. split; [|split; [|split; [reflexivity|]]].
    + apply @StronglySorted_merge_sort;
        first [exact date_text_ge_trans | exact date_text_ge_total].
    + apply merge_sort_Permutation.
    + apply Forall_forall. intros v _.
      destruct (shorten_spec (complaints v)) as (A & B & C & _).
      destruct (shorten_spec (treatment v)) as (A' & _).
      auto.
Qed.

(* ===================================================================== *)
(** ** Loading a record in the intake form *)
(* ===================================================================== *)

Section EditForm.

Lemma strip_snoc_space (v : str) (c : N) :
  isspace c = true -> strip (v ++ [c]) = strip v.
Proof.
  intros Hc. unfold strip. induction v as [|d v IH].
  - cbn [List.app lstrip_by]. rewrite Hc. reflexivity.
  - cbn [List.app lstrip_by]. destruct (isspace d); [exact IH|].
    change (d :: v ++ [c]) with ((d :: v) ++ [c]).
    unfold rstrip_by. rewrite rev_unit. cbn [lstrip_by]. rewrite Hc. reflexivity.
Qed.

Lemma widget_content_set (es : gmap string widget) (key : string)
    (w : widget) (text : str) :
  es !! key = Some (set_widget w text) -> widget_content es key = strip text.
Proof.
  intros H. unfold widget_content. rewrite H. destruct w; cbn [set_widget].
  - apply strip_snoc_space. reflexivity.
  - reflexivity.
Qed.

Lemma fill_widget_other (es : gmap string widget) (k key : string) (v : str) :
  key <> k -> fill_widget es (k, v) !! key = es !! key.
Proof.
  intros H. unfold fill_widget. destruct (es !! k); [|reflexivity].
  apply lookup_insert_ne. congruence.
Qed.

Lemma fill_widget_same (es : gmap string widget) (k : string) (v : str) :
  fill_widget es (k, v) !! k
  = (fun w => set_widget w (shown_value k v)) <$> es !! k.
Proof.
  unfold fill_widget, shown_value. destruct (es !! k) as [w|] eqn:E.
  - rewrite lookup_insert_eq. reflexivity.
  - rewrite E. reflexivity.
Qed.

Lemma fold_fill_other (kvs : list (string * str)) (es : gmap string widget)
    (key : string) :
  ~ In key (List.map fst kvs) ->
  fold_left fill_widget kvs es !! key = es !! key.
Proof.
  revert es. induction kvs as [|[k v] kvs IH]; intros es H; [reflexivity|].
  cbn [fold_left]. rewrite IH.
  - apply fill_widget_other. intros ->. apply H. left. reflexivity.
  - intros Hin. apply H. right. exact Hin.
Qed.

Lemma fold_fill_same (kvs : list (string * str)) (es : gmap string widget)
    (key : string) (value : str) :
  NoDup (List.map fst kvs) -> In (key, value) kvs ->
  fold_left fill_widget kvs es !! key
  = (fun w => set_widget w (shown_value key value)) <$> es !! key.
Proof.
  revert es. induction kvs as [|[k v] kvs IH]; intros es Hnd Hin; [destruct Hin|].
  cbn [List.map fst] in Hnd. apply NoDup_cons in Hnd as [Hk Hnd].
  cbn [fold_left]. destruct Hin as [E|Hin].
  - injection E as -> ->. rewrite fold_fill_other.
    + apply fill_widget_same.
    + intros H. apply Hk, list_elem_of_In, H.
  - rewrite (IH _ Hnd Hin). rewrite fill_widget_other; [reflexivity|].
    intros ->. apply Hk, list_elem_of_In, in_map_iff. exists (k, value). auto.
Qed.

Lemma intake_keys_NoDup : NoDup intake_keys.
Proof. apply (bool_decide_unpack _). vm_compute. reflexivity. Qed.

Lemma zip_map_self {A B} (g : A -> B) (l : list A) :
  zip l (List.map g l) = List.map (fun k => (k, g k)) l.
Proof. induction l as [|a l IH]; [reflexivity|]. cbn. rewrite IH. reflexivity. Qed.

(** Encoding again the display form of a stored case number of at most five
    digits gives the stored case number. *)
Lemma pad_unpad_pad (content : str) :
  strip content = content ->
  (length (numeric_part content) <= CASE_NO_PADDING_SIZE)%nat ->
  pad_case_no (strip (decode (pad_case_no content))) = pad_case_no content.
Proof.
  intros Hs Hl.
  assert (E : pad_case_no content = encode content)
    by (unfold encode; rewrite Hs; reflexivity).
  rewrite E. change (pad_case_no (strip ?x)) with (encode x).
  destruct (has_digit content) eqn:H.
  - destruct (encode_all_digits content H) as (D & L & Hne).
    assert (L5 : length (encode content) = CASE_NO_PADDING_SIZE).
    { rewrite (encode_digit_bearing content H).
      rewrite zfill_length by apply numeric_part_all_digits. lia. }
    rewrite (decode_digits _ D Hne).
    rewrite (encode_digits _ (canonical_all_digits _ D) (canonical_nonempty _)).
    rewrite zfill_canonical by (try exact D; rewrite L5; unfold CASE_NO_PADDING_SIZE; lia).
    apply zfill_long. lia.
  - rewrite (encode_no_digit content H).
    rewrite decode_no_digit by (rewrite has_digit_strip; exact H).
    rewrite encode_no_digit by (rewrite has_digit_strip; exact H).
    apply strip_idem.
Qed.

End EditForm.

(** X21. Opening a stored record and reading the form back gives the record.
    When the form has a widget for each of its 26 keys, and the record holds
    the values read from a form whose case number has at most five digits,
    [get_patient_data] on the form that [edit_record] has filled returns the
    columns of the record, whatever the form held before. *)
Theorem edit_then_read_back
    (today : str) (entries saved : gmap string widget) (key_id : Z) :
  (forall key, In key intake_keys -> is_Some (entries !! key)) ->
  (length (numeric_part (widget_content saved "entry_case_no"))
   <= CASE_NO_PADDING_SIZE)%nat ->
  get_patient_data
    (edit_form today entries (PatientRow key_id (get_patient_data saved)))
  = get_patient_data saved.
Proof.
  intros Hw Hl. unfold edit_form. cbn [columns].
  unfold get_patient_data at 1 3. apply List.map_ext_in. intros key Hkey.
  set (value :=
         if bool_decide (key = "entry_case_no")
         then pad_case_no (widget_content saved key)
         else widget_content saved key).
  assert (Hin : In (key, value)
                   (zip intake_keys (get_patient_data saved))).
  { unfold get_patient_data. rewrite zip_map_self. apply in_map_iff.
    exists key. split; [reflexivity|exact Hkey]. }
  assert (Hnd : NoDup (List.map fst (zip intake_keys (get_patient_data saved)))).
  { unfold get_patient_data. rewrite zip_map_self, List.map_map. cbn [fst].
    rewrite List.map_id. exact intake_keys_NoDup. }
  pose proof (fold_fill_same _ (clear_entries today entries) key value Hnd Hin) as Hf.
  destruct (Hw key Hkey) as [w0 Hw0].
  unfold clear_entries in Hf at 2. rewrite map_lookup_imap, Hw0 in Hf.
  cbn [mbind option_bind fmap option_fmap option_map] in Hf.
  rewrite (widget_content_set _ _ _ _ Hf).
  unfold shown_value, value.
  destruct (bool_decide (key = "entry_case_no")) eqn:E.
  - apply bool_decide_eq_true in E. subst key.
    apply pad_unpad_pad; [apply widget_content_stripped|exact Hl].
  - apply widget_content_stripped.
Qed.

Lemma edit_then_read_back_witness :
  get_patient_data
    (edit_form (lit "04-11-2026")
       (list_to_map ((fun key => (key, EntryWidget (lit "old"))) <$> intake_keys))
       (PatientRow 1 (get_patient_data session_entries)))
  = get_patient_data session_entries.
Proof.
  apply edit_then_read_back.
  - intros key Hkey.
    repeat (destruct Hkey as [<-|Hkey]; [vm_compute; eauto|]). destruct Hkey.
  - vm_compute. lia.
Defined.

(* ===================================================================== *)
(** ** The backup folder *)
(* ===================================================================== *)

Section Backup.

#[local] Instance name_le_total : Total name_le.
Proof. intros f g. apply str_leb_total. Qed.

#[local] Instance name_le_trans : Transitive name_le.
Proof. intros f g h. apply str_leb_trans. Qed.

Lemma StronglySorted_app_le {A} (R : A -> A -> Prop) (l1 l2 : list A) :
  StronglySorted R (l1 ++ l2) ->
  forall x y, In x l1 -> In y l2 -> R x y.
Proof.
  induction l1 as [|a l1 IH]; intros HS x y Hx Hy; [destruct Hx|].
  cbn [List.app] in HS. apply StronglySorted_inv in HS as [HS Ha].
  destruct Hx as [<-|Hx]; [|exact (IH HS x y Hx Hy)].
  rewrite Forall_forall in Ha. apply Ha, list_elem_of_In, in_app_iff. right. exact Hy.
Qed.

Lemma NoDup_filter_keep {A} (p : A -> bool) (l : list A) :
  NoDup l -> NoDup (List.filter p l).
Proof.
  induction 1 as [|x l Hx Hl IH]; cbn [List.filter]; [apply NoDup_nil_2|].
  destruct (p x); [|exact IH]. apply NoDup_cons. split; [|exact IH].
  intros Hin. apply Hx. apply list_elem_of_In in Hin. apply list_elem_of_In.
  apply List.filter_In in Hin. tauto.
Qed.

Lemma startswith_app (prefix s : str) : startswith prefix (prefix ++ s) = true.
Proof.
  induction prefix as [|c prefix IH]; [reflexivity|].
  cbn [List.app startswith]. rewrite N.eqb_refl. exact IH.
Qed.

(** The name [backup_database] writes is a backup name. *)
Lemma backup_file_is_backup (timestamp : str) :
  is_backup (lit "patients_backup_" ++ timestamp ++ lit ".db") = true.
Proof.
  unfold is_backup. rewrite startswith_app. cbn [andb].
  unfold endswith. rewrite !rev_app_distr, <- app_assoc. apply startswith_app.
Qed.

End Backup.

(** X22. Backup retention. After [backup_database] on a folder, at most ten
    backups are left, and exactly ten when there were more; the files that
    are not backups are all still there; no file appears except the new
    backup; every backup that was removed comes before every backup that was
    kept in name order; and the new backup is kept when no older backup has a
    later name. *)
Theorem backup_database_keeps_last_ten (timestamp : str) (folder : list str) :
  NoDup folder ->
  let backup_file := lit "patients_backup_" ++ timestamp ++ lit ".db" in
  let folder' := backup_database timestamp folder in
  let copied :=
    if bool_decide (backup_file ∈ folder) then folder else folder ++ [backup_file] in
  length (List.filter is_backup folder')
  = Nat.min 10 (length (List.filter is_backup copied))
  /\ (length (List.filter is_backup folder') <= 10)%nat
  /\ (forall f, is_backup f = false -> In f folder' <-> In f folder)
  /\ (forall f, In f folder' -> In f folder \/ f = backup_file)
  /\ (forall removed kept,
        is_backup removed = true -> In removed folder -> ~ In removed folder' ->
        is_backup kept = true -> In kept folder' ->
        name_le removed kept)
  /\ ((forall f, In f folder -> is_backup f = true -> name_le f backup_file) ->
      In backup_file folder').
Proof.
  intros Hnd. cbv zeta. unfold backup_database.
  set (backup_file := lit "patients_backup_" ++ timestamp ++ lit ".db").
  assert (Hbb : is_backup backup_file = true) by apply backup_file_is_backup.
  set (F := if bool_decide (backup_file ∈ folder) then folder
            else folder ++ [backup_file]).
  assert (HF : forall f, In f F <-> In f folder \/ f = backup_file).
  { intros f. unfold F. destruct (bool_decide_reflect (backup_file ∈ folder)) as [Hin|Hin].
    - split; [auto|]. intros [H| ->]; [exact H|apply list_elem_of_In, Hin].
    - rewrite in_app_iff. cbn [In]. intuition congruence. }
  assert (HndF : NoDup F).
  { unfold F. destruct (bool_decide_reflect (backup_file ∈ folder)) as [Hin|Hin];
      [exact Hnd|].
    apply NoDup_app. split; [exact Hnd|]. split; [|apply NoDup_singleton].
    intros x Hx Hx'. apply list_elem_of_In in Hx'. destruct Hx' as [<-|[]]. auto. }
  set (B := merge_sort name_le (List.filter is_backup F)).
  pose proof (merge_sort_Permutation name_le (List.filter is_backup F)) as PB.
  fold B in PB.
  assert (HB : forall f, In f B <-> In f F /\ is_backup f = true).
  { intros f. rewrite <- list_elem_of_In, PB, list_elem_of_In. apply List.filter_In. }
  assert (HndB : NoDup B) by (rewrite PB; apply NoDup_filter_keep, HndF).
  assert (HSB : StronglySorted name_le B).
  { apply @StronglySorted_merge_sort;
      first [exact name_le_trans | exact name_le_total]. }
  assert (Hnew : In backup_file B).
  { apply HB. split; [apply HF; auto|exact Hbb]. }
  destruct (Nat.ltb_spec 10 (length B)) as [Hlong|Hshort].
  - (* more than ten backups: the first ones are removed *)
    set (n := (length B - 10)%nat).
    set (old := take n B). set (keep := drop n B).
    assert (EB : B = old ++ keep) by (symmetry; apply take_drop).
    assert (Lkeep : length keep = 10%nat) by (unfold keep; rewrite length_drop; lia).
    set (folder' := List.filter (fun f => negb (bool_decide (f ∈ old))) F).
    assert (Hf' : forall f, In f folder' <-> In f F /\ ~ In f old).
    { intros f. unfold folder'. rewrite List.filter_In, negb_true_iff,
        bool_decide_eq_false, list_elem_of_In. reflexivity. }
    assert (Hdisj : forall f, In f old -> In f keep -> False).
    { intros f Ho Hk. rewrite EB in HndB. apply NoDup_app in HndB as (_ & Hd & _).
      apply (Hd f); apply list_elem_of_In; assumption. }
    assert (Hkeep : forall f, In f (List.filter is_backup folder') <-> In f keep).
    { intros f. rewrite List.filter_In, Hf'. split.
      - intros [[HinF Hno] Hb]. assert (In f B) as HinB by (apply HB; auto).
        rewrite EB in HinB. apply in_app_iff in HinB as [|]; tauto.
      - intros Hk. assert (In f B) as HinB by (rewrite EB; apply in_app_iff; auto).
        apply HB in HinB as [HinF Hb]. repeat split; auto.
        intros Ho. exact (Hdisj f Ho Hk). }
    assert (Pkeep : List.filter is_backup folder' ≡ₚ keep).
    { apply NoDup_Permutation.
      - apply NoDup_filter_keep, NoDup_filter_keep, HndF.
      - rewrite EB in HndB. apply NoDup_app in HndB. tauto.
      - intros f. rewrite !list_elem_of_In. apply Hkeep. }
    assert (Lk : length (List.filter is_backup folder') = 10%nat)
      by (rewrite (Permutation_length Pkeep); exact Lkeep).
    assert (LB : length (List.filter is_backup F) = length B)
      by (symmetry; apply Permutation_length, PB).
    split; [rewrite Lk, LB; lia|]. split; [lia|]. split; [|split; [|split]].
    + intros f Hb. rewrite Hf', HF. split.
      * intros [[H| ->] _]; [exact H|].
        congruence.
      * intros H. split; [auto|]. intros Ho.
        assert (In f B) as HinB by (rewrite EB; apply in_app_iff; auto).
        apply HB in HinB as [_ Hb']. congruence.
    + intros f Hin. apply Hf' in Hin as [Hin _]. apply HF, Hin.
    + intros removed kept Hbr Hr Hnr Hbk Hk.
      assert (In kept keep) as Hkk by (apply Hkeep, List.filter_In; auto).
      assert (In removed old) as Hro.
      { assert (In removed B) as HinB by (apply HB; split; [apply HF; auto|exact Hbr]).
        rewrite EB in HinB. apply in_app_iff in HinB as [H|H]; [exact H|].
        exfalso. apply Hnr. apply Hkeep in H. apply List.filter_In in H. tauto. }
      rewrite EB in HSB. exact (StronglySorted_app_le _ _ _ HSB _ _ Hro Hkk).
    + intros Hlatest. apply Hf'. split; [apply HF; auto|]. intros Ho.
      destruct keep as [|k keep'] eqn:Ek; [cbn in Lkeep; lia|].
      assert (In k (k :: keep')) as Hk by (left; reflexivity).
      assert (name_le backup_file k) as H1.
      { rewrite EB in HSB. exact (StronglySorted_app_le _ _ _ HSB _ _ Ho Hk). }
      assert (k <> backup_file) as Hne.
      { intros ->. exact (Hdisj _ Ho Hk). }
      assert (In k B) as HkB by (rewrite EB; apply in_app_iff; auto).
      apply HB in HkB as [HkF Hkb]. apply HF in HkF as [HkF|HkF]; [|congruence].
      apply Hne. apply str_leb_antisym; [exact (Hlatest k HkF Hkb)|exact H1].
  - (* at most ten backups: nothing is removed *)
    assert (LB : length (List.filter is_backup F) = length B)
      by (symmetry; apply Permutation_length, PB).
    split; [|split; [lia|split; [|split; [|split]]]].
    + lia.
    + intros f Hb. rewrite HF. split; [|auto].
      intros [H| ->]; [exact H|].
      congruence.
    + intros f Hin. apply HF, Hin.
    + intros removed kept _ Hr Hnr. exfalso. apply Hnr, HF. auto.
    + intros _. apply HF. auto.
Qed.

Lemma backup_database_keeps_last_ten_witness :
  NoDup [lit "notes.txt"; lit "patients_backup_20260101_090000.db"]
  /\ In (lit "patients_backup_20261104_101500.db")
        (backup_database (lit "20261104_101500")
           [lit "notes.txt"; lit "patients_backup_20260101_090000.db"]).
Proof.
  assert (H : NoDup [lit "notes.txt"; lit "patients_backup_20260101_090000.db"])
    by (apply (bool_decide_unpack _); vm_compute; reflexivity).
  split; [exact H|].
  destruct (backup_database_keeps_last_ten (lit "20261104_101500") _ H)
    as (_ & _ & _ & _ & _ & Hnew).
  apply Hnew. intros f [<-|[<-|[]]] Hb; [discriminate Hb|].
  vm_compute. reflexivity.
Defined.
